(** * libimage/search.go: federated image search

    A shallow embedding of [Runtime.Search], [searchImageInRegistry],
    [searchRepositoryTags] and the [SearchFilter] predicates.

    Go values are modelled as follows.
    - [string] is a sequence of bytes: Rocq's [string], whose characters are
      8-bit; the length of a string is [String.length] and slicing counts
      bytes.
    - [int] is [Z]; the code only compares and counts, so no wrap-around
      occurs.
    - [(value, error)] results of the collaborators are a sum, since the code
      looks at the value only when the error is nil.
    - a run-time panic (index or slice out of range) is [None] in the option
      monad; the panics are then shown never to happen.
    - the goroutines of [Search] are a labelled transition system whose labels
      are the scheduler's choices. *)

From Stdlib Require Import ZArith Ascii String.
From stdpp Require Import base tactics option list strings.

Local Open Scope string_scope.
Local Open Scope list_scope.
Local Open Scope Z_scope.

(** ** Constants (search.go, lines 19-25) *)

Definition searchTruncLength : nat := 44.
Definition searchMaxQueries : Z := 25.
Definition searchMaxParallel : Z := 6.

(** ** The Go [strings] package, at one-byte separators

    The source calls these functions with the constant separators ["/"],
    ["."] and a newline only, so the separator is a single byte here. *)

Module strings.

(** [s] cut at the first [sep]: the text before it and the text after it. *)
Fixpoint Cut (s : string) (sep : ascii) : option (string * string) :=
  match s with
  | EmptyString => None
  | String c s' =>
      if Ascii.eqb c sep then Some (EmptyString, s')
      else match Cut s' sep with
           | Some (before, after) => Some (String c before, after)
           | None => None
           end
  end.

(** [strings.SplitN(s, sep, 2)]. *)
Definition SplitN2 (s : string) (sep : ascii) : list string :=
  match Cut s sep with
  | Some (before, after) => [before; after]
  | None => [s]
  end.

(** [strings.Split(s, sep)]: never empty, [Split "" sep = [""]]. *)
Fixpoint Split (s : string) (sep : ascii) : list string :=
  match s with
  | EmptyString => [EmptyString]
  | String c s' =>
      if Ascii.eqb c sep then EmptyString :: Split s' sep
      else match Split s' sep with
           | piece :: pieces => String c piece :: pieces
           | [] => [String c EmptyString]
           end
  end.

(** [strings.Join(elems, sep)]. *)
Definition Join (elems : list string) (sep : string) : string :=
  String.concat sep elems.

(** [strings.Contains(s, sep)]. *)
Fixpoint Contains (s : string) (sep : ascii) : bool :=
  match s with
  | EmptyString => false
  | String c s' => Ascii.eqb c sep || Contains s' sep
  end.

(** [strings.ReplaceAll(s, old, new)]. *)
Fixpoint ReplaceAll (s : string) (old new : ascii) : string :=
  match s with
  | EmptyString => EmptyString
  | String c s' =>
      String (if Ascii.eqb c old then new else c) (ReplaceAll s' old new)
  end.

(** The slice expression [s[:n]]; it panics when [n > len(s)]. *)
Fixpoint SliceTo (s : string) (n : nat) : option string :=
  match n, s with
  | O, _ => Some EmptyString
  | S n', String c s' => String c <$> SliceTo s' n'
  | S _, EmptyString => None
  end.

End strings.

Definition slash : ascii := "/"%char.
Definition dot : ascii := "."%char.
Definition newline : ascii := "010"%char.
Definition space : ascii := " "%char.

(** ** Collaborator types (containers/image) *)

Module types.

(** [types.OptionalBool] with its three declared values. *)
Inductive OptionalBool : Set :=
| OptionalBoolUndefined
| OptionalBoolTrue
| OptionalBoolFalse.

#[global] Instance OptionalBool_eq_dec : EqDecision OptionalBool.
Proof. solve_decision. Defined.

(** [types.SystemContext], reduced to the field [search.go] writes. *)
Record SystemContext : Set := {
  DockerInsecureSkipTLSVerify : OptionalBool
}.

(** [types.ImageReference], seen through the two observations made of it:
    [ref.Transport().Name()] and [ref.DockerReference().Name()]. *)
Record ImageReference : Set := {
  Transport_Name : string;
  DockerReference_Name : string
}.

End types.

Module dockerTransport.

(** [docker.SearchResult]: one raw hit of a registry's search endpoint. *)
Record SearchResult : Set := {
  Name : string;
  Description : string;
  StarCount : Z;
  IsAutomated : bool;
  IsOfficial : bool
}.

(** [docker.Transport.Name()]. *)
Definition Transport_Name : string := "docker".

End dockerTransport.

(** ** Errors

    An error is identified by how it was built.  [Errorf_s] and [Errorf_v]
    stand for [errors.Errorf(format, arg)] with a string and with an error
    argument; the format string is kept as the source writes it. *)

#[warnings="-register-all"]
Inductive error : Set :=
| External (msg : string)
| Errorf_s (format : string) (arg : string)
| Errorf_v (format : string) (cause : error)
| MultiError (Errors : list error).

Inductive result (A : Type) : Type :=
| Ok (value : A)
| Err (err : error).
Arguments Ok {A} value.
Arguments Err {A} err.

Module multierror.

(** The causes an error contributes when it is appended: a multi-error is
    flattened, any other error is one cause. *)
Definition causes (e : error) : list error :=
  match e with
  | MultiError es => es
  | _ => [e]
  end.

(** [multierror.Append(err, e)] for a nil-able accumulator [err]. *)
Definition Append (err : option error) (e : error) : error :=
  MultiError (from_option causes [] err ++ causes e).

End multierror.

(** ** Data model (search.go, lines 27-70) *)

Module SearchResult.
Record t : Set := {
  Index : string;
  Name : string;
  Description : string;
  Stars : Z;
  Official : string;
  Automated : string;
  Tag : string
}.
End SearchResult.

Module SearchFilter.
Record t : Set := {
  Stars : Z;
  IsAutomated : types.OptionalBool;
  IsOfficial : types.OptionalBool
}.
End SearchFilter.

Module SearchOptions.
Record t : Set := {
  Filter : SearchFilter.t;
  Limit : Z;
  NoTrunc : bool;
  Authfile : string;
  InsecureSkipTLSVerify : types.OptionalBool;
  ListTags : bool
}.
End SearchOptions.

(** The registry client and the reference parser [search.go] delegates to. *)
Record RegistryClient : Type := {
  SearchRegistry :
    types.SystemContext -> string -> string -> Z ->
    result (list dockerTransport.SearchResult);
  ParseImageName : string -> result types.ImageReference;
  GetRepositoryTags :
    types.SystemContext -> types.ImageReference -> result (list string)
}.

(** ** Result filter (search.go, lines 248-264) *)

Definition matchesStarFilter
    (f : SearchFilter.t) (result : dockerTransport.SearchResult) : bool :=
  dockerTransport.StarCount result >=? SearchFilter.Stars f.

Definition matchesAutomatedFilter
    (f : SearchFilter.t) (result : dockerTransport.SearchResult) : bool :=
  if bool_decide (SearchFilter.IsAutomated f <> types.OptionalBoolUndefined)
  then Bool.eqb (dockerTransport.IsAutomated result)
         (bool_decide (SearchFilter.IsAutomated f = types.OptionalBoolTrue))
  else true.

Definition matchesOfficialFilter
    (f : SearchFilter.t) (result : dockerTransport.SearchResult) : bool :=
  if bool_decide (SearchFilter.IsOfficial f <> types.OptionalBoolUndefined)
  then Bool.eqb (dockerTransport.IsOfficial result)
         (bool_decide (SearchFilter.IsOfficial f = types.OptionalBoolTrue))
  else true.

(** The condition of line 180, before its negation. *)
Definition matchesFilters
    (f : SearchFilter.t) (result : dockerTransport.SearchResult) : bool :=
  matchesAutomatedFilter f result && matchesOfficialFilter f result
  && matchesStarFilter f result.

(** ** Per-registry searcher (search.go, lines 133-246) *)

Record Runtime : Set := {
  systemContext : types.SystemContext
}.

Definition len {A : Type} (l : list A) : Z := Z.of_nat (length l).

(** Lines 157-161: the registry host cut down to its last two labels. *)
Definition shortenIndex (registry : string) : string :=
  let index := registry in
  let arr := strings.Split registry dot in
  if len arr >? 2
  then strings.Join (drop (length arr - 2)%nat arr) "."
  else index.

(** Lines 166-175: how many raw hits the loop of line 178 visits. *)
Definition hitsLimit
    (options : SearchOptions.t)
    (results : list dockerTransport.SearchResult) : Z :=
  let limit := searchMaxQueries in
  let limit := if len results <? limit then len results else limit in
  if bool_decide (SearchOptions.Limit options <> 0)
  then
    let limit := len results in
    if SearchOptions.Limit options <? len results
    then SearchOptions.Limit options
    else limit
  else limit.

(** Lines 227-236: the same computation over the tag list. *)
Definition tagsLimit (options : SearchOptions.t) (tags : list string) : Z :=
  let limit := searchMaxQueries in
  let limit := if len tags <? limit then len tags else limit in
  if bool_decide (SearchOptions.Limit options <> 0)
  then
    let limit := len tags in
    if SearchOptions.Limit options <? limit
    then SearchOptions.Limit options
    else limit
  else limit.

(** Lines 183-206: the body of the loop for a hit that passed the filter. *)
Definition formatHit
    (options : SearchOptions.t) (registry index : string)
    (hit : dockerTransport.SearchResult) : option SearchResult.t :=
  let official := if dockerTransport.IsOfficial hit then "[OK]" else "" in
  let automated := if dockerTransport.IsAutomated hit then "[OK]" else "" in
  let description :=
    strings.ReplaceAll (dockerTransport.Description hit) newline space in
  description ←
    (if (Z.of_nat (String.length description) >? 44)
        && negb (SearchOptions.NoTrunc options)
     then d ← strings.SliceTo description searchTruncLength; Some (d +:+ "...")
     else Some description);
  let name := (registry +:+ "/") +:+ dockerTransport.Name hit in
  let name :=
    if bool_decide (index = "docker.io")
       && negb (strings.Contains (dockerTransport.Name hit) slash)
    then (index +:+ "/library/") +:+ dockerTransport.Name hit
    else name in
  Some {| SearchResult.Index := index;
          SearchResult.Name := name;
          SearchResult.Description := description;
          SearchResult.Official := official;
          SearchResult.Automated := automated;
          SearchResult.Stars := dockerTransport.StarCount hit;
          SearchResult.Tag := "" |}.

(** Lines 178-208: [steps] iterations remain, the loop variable is [i]. *)
Fixpoint hitsLoop
    (options : SearchOptions.t) (registry index : string)
    (results : list dockerTransport.SearchResult)
    (steps i : nat) (paramsArr : list SearchResult.t)
    : option (list SearchResult.t) :=
  match steps with
  | O => Some paramsArr
  | S steps' =>
      hit ← results !! i;
      if negb (matchesFilters (SearchOptions.Filter options) hit)
      then hitsLoop options registry index results steps' (S i) paramsArr
      else
        params ← formatHit options registry index hit;
        hitsLoop options registry index results steps' (S i)
          (paramsArr ++ [params])
  end.

(** Lines 239-242: the fields not named keep their zero value. *)
Definition tagParams (imageRef : types.ImageReference) (tag : string)
    : SearchResult.t :=
  {| SearchResult.Index := "";
     SearchResult.Name := types.DockerReference_Name imageRef;
     SearchResult.Description := "";
     SearchResult.Stars := 0;
     SearchResult.Official := "";
     SearchResult.Automated := "";
     SearchResult.Tag := tag |}.

(** Lines 238-244. *)
Fixpoint tagsLoop
    (imageRef : types.ImageReference) (tags : list string)
    (steps i : nat) (paramsArr : list SearchResult.t)
    : option (list SearchResult.t) :=
  match steps with
  | O => Some paramsArr
  | S steps' =>
      tag ← tags !! i;
      let params := tagParams imageRef tag in
      tagsLoop imageRef tags steps' (S i) (paramsArr ++ [params])
  end.

(** The error of lines 216 and 220. *)
Definition errMustBeDockerReference (term : string) : error :=
  Errorf_s "reference %q must be a docker reference" term.

(** The error of line 225. *)
Definition errGettingRepositoryTags (err : error) : error :=
  Errorf_v "error getting repository tags: %v" err.

Section PerRegistry.

Context (client : RegistryClient).

(** Lines 213-222: the reference the tags are listed for. *)
Definition tagsReference (registry term : string)
    : result types.ImageReference :=
  let dockerPrefix := "docker://" in
  match ParseImageName client ((registry +:+ "/") +:+ term) with
  | Ok imageRef =>
      if bool_decide (types.Transport_Name imageRef
                      <> dockerTransport.Transport_Name)
      then Err (errMustBeDockerReference term)
      else Ok imageRef
  | Err _ =>
      match ParseImageName client
              (dockerPrefix +:+ ((registry +:+ "/") +:+ term)) with
      | Ok imageRef => Ok imageRef
      | Err _ => Err (errMustBeDockerReference term)
      end
  end.

Definition searchRepositoryTags
    (sys : types.SystemContext) (registry term : string)
    (options : SearchOptions.t)
    : option (list SearchResult.t * option error) :=
  match tagsReference registry term with
  | Err err => Some ([], Some err)
  | Ok imageRef =>
      match GetRepositoryTags client sys imageRef with
      | Err err => Some ([], Some (errGettingRepositoryTags err))
      | Ok tags =>
          let limit := tagsLimit options tags in
          paramsArr ← tagsLoop imageRef tags (Z.to_nat limit) 0 [];
          Some (paramsArr, None)
      end
  end.

Definition searchImageInRegistry
    (r : Runtime) (term registry : string) (options : SearchOptions.t)
    : option (list SearchResult.t * option error) :=
  let limit := searchMaxQueries in
  let limit :=
    if SearchOptions.Limit options >? 0
    then SearchOptions.Limit options else limit in
  let sys := systemContext r in
  let sys :=
    if bool_decide (SearchOptions.InsecureSkipTLSVerify options
                    <> types.OptionalBoolUndefined)
    then {| types.DockerInsecureSkipTLSVerify :=
              SearchOptions.InsecureSkipTLSVerify options |}
    else sys in
  if SearchOptions.ListTags options
  then
    '(results, err) ← searchRepositoryTags sys registry term options;
    match err with
    | Some err => Some ([], Some err)
    | None => Some (results, None)
    end
  else
    match SearchRegistry client sys registry term limit with
    | Err err => Some ([], Some err)
    | Ok results =>
        let index := shortenIndex registry in
        let limit := hitsLimit options results in
        paramsArr ←
          hitsLoop options registry index results (Z.to_nat limit) 0 [];
        Some (paramsArr, None)
    end.

End PerRegistry.

(** ** Concurrent dispatcher (search.go, lines 72-131) *)

(** Lines 91-94. *)
Module searchOutputData.
Record t : Set := {
  data : list SearchResult.t;
  err : option error
}.
End searchOutputData.

(** The zero value [make] fills the outcome slots with. *)
Definition zeroOutput : searchOutputData.t :=
  {| searchOutputData.data := []; searchOutputData.err := None |}.

(** Lines 85-88. *)
Definition splitTerm (searchRegistries : list string) (term : string)
    : option (list string * string) :=
  let spl := strings.SplitN2 term slash in
  if len spl >? 1
  then
    registry ← spl !! 0%nat;
    rest ← spl !! 1%nat;
    Some (searchRegistries ++ [registry], rest)
  else Some (searchRegistries, term).

(** Lines 115-123: the loop over the outcome slots. *)
Fixpoint collect
    (data : list searchOutputData.t)
    (results : list SearchResult.t) (multiErr : option error)
    : list SearchResult.t * option error :=
  match data with
  | [] => (results, multiErr)
  | d :: data' =>
      match searchOutputData.err d with
      | Some e => collect data' results (Some (multierror.Append multiErr e))
      | None => collect data' (results ++ searchOutputData.data d) multiErr
      end
  end.

(** Lines 115-130: what [Search] returns once every goroutine is done. *)
Definition aggregate (data : list searchOutputData.t)
    : list SearchResult.t * option error :=
  let '(results, multiErr) := collect data [] None in
  if len results >? 0 then (results, None) else (results, multiErr).

(** Where the goroutine of lines 106-111 stands. *)
Inductive goroutine : Set :=
| NotStarted
| Searching
| Stored
| WgDone
| Finished.

#[global] Instance goroutine_eq_dec : EqDecision goroutine.
Proof. solve_decision. Defined.

(** The goroutine is between [sem.Acquire] and its [sem.Release]. *)
Definition holdsPermit (g : goroutine) : bool :=
  match g with
  | Searching | Stored | WgDone => true
  | NotStarted | Finished => false
  end.

(** The goroutine has written its slot (line 110). *)
Definition hasStored (g : goroutine) : bool :=
  match g with
  | Stored | WgDone | Finished => true
  | NotStarted | Searching => false
  end.

(** The goroutine has called [wg.Done()]. *)
Definition hasSignalled (g : goroutine) : bool :=
  match g with
  | WgDone | Finished => true
  | NotStarted | Searching | Stored => false
  end.

(** The state of one call of [Search] after line 99. *)
Record state : Set := {
  next : nat;
  routines : list goroutine;
  sem_cur : Z;
  wg : Z;
  slots : list searchOutputData.t;
  ctx_err : option error;
  returned : option (list SearchResult.t * option error)
}.

(** The scheduler's choices.  [semaphore.Weighted.Acquire] returns nil only
    when a permit is free and [ctx.Err()] only when [ctx] is done; the
    events [Acquired] and [AcquireFailed] are its two outcomes at line 102. *)
Inductive event : Set :=
| Cancel (e : error)
| Acquired
| AcquireFailed
| SearchReturns (index : nat)
| RunWgDone (index : nat)
| RunRelease (index : nat)
| WaitReturns.

#[global] Instance error_eq_dec : EqDecision error.
Proof.
  refine (fix go (x y : error) : Decision (x = y) :=
    match x, y with
    | External a, External b => cast_if (decide (a = b))
    | Errorf_s f a, Errorf_s g b => cast_if_and (decide (f = g)) (decide (a = b))
    | Errorf_v f a, Errorf_v g b => cast_if_and (decide (f = g)) (go a b)
    | MultiError a, MultiError b =>
        cast_if (@list_eq_dec _ go a b)
    | _, _ => right _
    end); abstract congruence.
Defined.

#[global] Instance event_eq_dec : EqDecision event.
Proof. solve_decision. Defined.

Definition countIf (p : goroutine -> bool) (l : list goroutine) : Z :=
  len (List.filter p l).

(** The number of goroutines holding a permit. *)
Definition inFlight (s : state) : Z := countIf holdsPermit (routines s).

Section Dispatcher.

(** [net index] is the registry client as the goroutine of slot [index]
    sees it: the answers of the network may differ from task to task. *)
Context (net : nat -> RegistryClient).
Context (r : Runtime) (options : SearchOptions.t).
(** The registry list and the term after lines 85-88. *)
Context (searchRegistries : list string) (term : string).

(** Lines 96-99. *)
Definition init : state :=
  {| next := 0;
     routines := replicate (length searchRegistries) NotStarted;
     sem_cur := 0;
     wg := len searchRegistries;
     slots := replicate (length searchRegistries) zeroOutput;
     ctx_err := None;
     returned := None |}.

Definition step (ev : event) (s : state) : option state :=
  match ev with
  | Cancel e =>
      match ctx_err s with
      | None =>
          Some {| next := next s; routines := routines s;
                  sem_cur := sem_cur s; wg := wg s; slots := slots s;
                  ctx_err := Some e; returned := returned s |}
      | Some _ => None
      end
  | Acquired =>
      (* line 102 returns nil; lines 105-111 start goroutine [next s] *)
      if bool_decide (returned s = None)
         && bool_decide (next s < length searchRegistries)%nat
         && (searchMaxParallel - sem_cur s >=? 1)
      then
        Some {| next := S (next s);
                routines := <[next s := Searching]> (routines s);
                sem_cur := sem_cur s + 1; wg := wg s; slots := slots s;
                ctx_err := ctx_err s; returned := returned s |}
      else None
  | AcquireFailed =>
      (* line 102 returns [ctx.Err()], line 103 returns *)
      if bool_decide (returned s = None)
         && bool_decide (next s < length searchRegistries)%nat
      then
        e ← ctx_err s;
        Some {| next := next s; routines := routines s;
                sem_cur := sem_cur s; wg := wg s; slots := slots s;
                ctx_err := ctx_err s; returned := Some ([], Some e) |}
      else None
  | SearchReturns index =>
      (* lines 109-110 *)
      g ← routines s !! index;
      if bool_decide (g = Searching)
      then
        registry ← searchRegistries !! index;
        '(searchOutput, err) ←
          searchImageInRegistry (net index) r term registry options;
        Some {| next := next s;
                routines := <[index := Stored]> (routines s);
                sem_cur := sem_cur s; wg := wg s;
                slots :=
                  <[index := {| searchOutputData.data := searchOutput;
                                searchOutputData.err := err |}]> (slots s);
                ctx_err := ctx_err s; returned := returned s |}
      else None
  | RunWgDone index =>
      (* line 108; a negative counter panics *)
      g ← routines s !! index;
      if bool_decide (g = Stored) && (wg s - 1 >=? 0)
      then
        Some {| next := next s;
                routines := <[index := WgDone]> (routines s);
                sem_cur := sem_cur s; wg := wg s - 1; slots := slots s;
                ctx_err := ctx_err s; returned := returned s |}
      else None
  | RunRelease index =>
      (* line 107; releasing more than is held panics *)
      g ← routines s !! index;
      if bool_decide (g = WgDone) && (sem_cur s - 1 >=? 0)
      then
        Some {| next := next s;
                routines := <[index := Finished]> (routines s);
                sem_cur := sem_cur s - 1; wg := wg s; slots := slots s;
                ctx_err := ctx_err s; returned := returned s |}
      else None
  | WaitReturns =>
      (* line 114 returns when the counter is zero; lines 115-130 *)
      if bool_decide (returned s = None)
         && bool_decide (next s = length searchRegistries)
         && (wg s =? 0)
      then
        Some {| next := next s; routines := routines s;
                sem_cur := sem_cur s; wg := wg s; slots := slots s;
                ctx_err := ctx_err s;
                returned := Some (aggregate (slots s)) |}
      else None
  end.

Fixpoint run (schedule : list event) (s : state) : option state :=
  match schedule with
  | [] => Some s
  | ev :: schedule' => s' ← step ev s; run schedule' s'
  end.

(** Lines 96-130 under a schedule: the value returned, if the call has
    returned by the end of the schedule. *)
Definition dispatch (schedule : list event)
    : option (list SearchResult.t * option error) :=
  s ← run schedule init; returned s.

End Dispatcher.

(** [Search] under a schedule.  [UnqualifiedSearchRegistries] is the
    registry list provider of line 73. *)
Definition Search
    (UnqualifiedSearchRegistries :
       types.SystemContext -> result (list string))
    (net : nat -> RegistryClient)
    (r : Runtime) (term : string) (options : SearchOptions.t)
    (schedule : list event)
    : option (list SearchResult.t * option error) :=
  match UnqualifiedSearchRegistries (systemContext r) with
  | Err err => Some ([], Some err)
  | Ok searchRegistries =>
      '(searchRegistries, term) ← splitTerm searchRegistries term;
      dispatch net r options searchRegistries term schedule
  end.

(** ** Definitions used to state the properties *)

(** The system context handed to the client (lines 140-143). *)
Definition clientContext (r : Runtime) (options : SearchOptions.t)
    : types.SystemContext :=
  if bool_decide (SearchOptions.InsecureSkipTLSVerify options
                  <> types.OptionalBoolUndefined)
  then {| types.DockerInsecureSkipTLSVerify :=
            SearchOptions.InsecureSkipTLSVerify options |}
  else systemContext r.

(** The upper bound handed to the client (lines 135-138). *)
Definition requestedLimit (options : SearchOptions.t) : Z :=
  if SearchOptions.Limit options >? 0
  then SearchOptions.Limit options else searchMaxQueries.

(** The description of a result as the specification words it. *)
Definition specDescription (options : SearchOptions.t) (raw : string)
    : string :=
  let d := strings.ReplaceAll raw newline space in
  if bool_decide (44 < String.length d)%nat
     && negb (SearchOptions.NoTrunc options)
  then String.substring 0 44 d +:+ "..."
  else d.

(** The name of a result as the specification words it. *)
Definition specName (registry index name : string) : string :=
  if bool_decide (index = "docker.io") && negb (strings.Contains name slash)
  then "docker.io/library/" +:+ name
  else registry +:+ "/" +:+ name.

(** The Result Formatter as the specification words it. *)
Definition specFormat (options : SearchOptions.t) (registry index : string)
    (hit : dockerTransport.SearchResult) : SearchResult.t :=
  {| SearchResult.Index := index;
     SearchResult.Name := specName registry index (dockerTransport.Name hit);
     SearchResult.Description :=
       specDescription options (dockerTransport.Description hit);
     SearchResult.Stars := dockerTransport.StarCount hit;
     SearchResult.Official :=
       if dockerTransport.IsOfficial hit then "[OK]" else "";
     SearchResult.Automated :=
       if dockerTransport.IsAutomated hit then "[OK]" else "";
     SearchResult.Tag := "" |}.

(** A tri-state filter field accepts a flag: unset accepts both values. *)
Definition triStateAccepts (want : types.OptionalBool) (flag : bool) : Prop :=
  match want with
  | types.OptionalBoolUndefined => True
  | types.OptionalBoolTrue => flag = true
  | types.OptionalBoolFalse => flag = false
  end.

(** The concatenation of the successful outcomes, in slot order. *)
Definition successes (data : list searchOutputData.t) : list SearchResult.t :=
  concat (searchOutputData.data <$>
            List.filter
              (fun d => bool_decide (searchOutputData.err d = None)) data).

(** The errors of the failed outcomes, in slot order. *)
Definition failures (data : list searchOutputData.t) : list error :=
  omap searchOutputData.err data.

(** The multi-cause error made of the given failures; nil for none. *)
Definition multiErrorOf (errs : list error) : option error :=
  match errs with
  | [] => None
  | _ :: _ => Some (MultiError (errs ≫= multierror.causes))
  end.

Definition b2z (b : bool) : Z := if b then 1 else 0.

(** The steps a goroutine still has to take. *)
Definition remaining (g : goroutine) : nat :=
  match g with
  | NotStarted => 4
  | Searching => 3
  | Stored => 2
  | WgDone => 1
  | Finished => 0
  end.

Definition work (l : list goroutine) : nat := sum_list (remaining <$> l).

Section DispatcherInvariant.

Context (net : nat -> RegistryClient).
Context (r : Runtime) (options : SearchOptions.t).
Context (searchRegistries : list string) (term : string).

(** What the goroutine of slot [index] stores (lines 109-110). *)
Definition outcome (index : nat) : option searchOutputData.t :=
  registry ← searchRegistries !! index;
  '(searchOutput, err) ←
    searchImageInRegistry (net index) r term registry options;
  Some {| searchOutputData.data := searchOutput;
          searchOutputData.err := err |}.

(** The invariant of the states a call of [Search] reaches. *)
Record wf (s : state) : Prop := {
  wf_routines : length (routines s) = length searchRegistries;
  wf_slots : length (slots s) = length searchRegistries;
  wf_next : (next s <= length searchRegistries)%nat;
  wf_started : forall j g,
    routines s !! j = Some g -> g = NotStarted <-> (next s <= j)%nat;
  wf_sem : sem_cur s = countIf holdsPermit (routines s);
  wf_sem_le : sem_cur s <= searchMaxParallel;
  wf_wg : wg s = len searchRegistries - countIf hasSignalled (routines s);
  wf_stored : forall j g,
    routines s !! j = Some g ->
    slots s !! j = if hasStored g then outcome j else Some zeroOutput;
  wf_returned : forall res,
    returned s = Some res ->
    (exists e, ctx_err s = Some e /\ res = ([], Some e)
               /\ (next s < length searchRegistries)%nat)
    \/ (next s = length searchRegistries
        /\ Forall (fun g => hasSignalled g = true) (routines s)
        /\ res = aggregate (slots s))
}.

End DispatcherInvariant.

(** ** Sample inputs *)

Definition noFilter : SearchFilter.t :=
  {| SearchFilter.Stars := 0;
     SearchFilter.IsAutomated := types.OptionalBoolUndefined;
     SearchFilter.IsOfficial := types.OptionalBoolUndefined |}.

Definition officialFilter : SearchFilter.t :=
  {| SearchFilter.Stars := 5;
     SearchFilter.IsAutomated := types.OptionalBoolUndefined;
     SearchFilter.IsOfficial := types.OptionalBoolTrue |}.

Definition sampleOptions (f : SearchFilter.t) (limit : Z) (listTags : bool)
    : SearchOptions.t :=
  {| SearchOptions.Filter := f;
     SearchOptions.Limit := limit;
     SearchOptions.NoTrunc := false;
     SearchOptions.Authfile := "";
     SearchOptions.InsecureSkipTLSVerify := types.OptionalBoolUndefined;
     SearchOptions.ListTags := listTags |}.

Definition sampleRuntime : Runtime :=
  {| systemContext :=
       {| types.DockerInsecureSkipTLSVerify := types.OptionalBoolUndefined |} |}.

Definition sampleHit (name : string) (stars : Z) (official : bool)
    : dockerTransport.SearchResult :=
  {| dockerTransport.Name := name;
     dockerTransport.Description :=
       "A minimal image based on a small libc and a busybox userland";
     dockerTransport.StarCount := stars;
     dockerTransport.IsAutomated := false;
     dockerTransport.IsOfficial := official |}.

(** A reference parser that wants a transport prefix, as the real one does:
    a bare [registry/term] is rejected, [docker://registry/term] is a docker
    reference and [dir:path] a reference of another transport. *)
Definition sampleParse (s : string) : result types.ImageReference :=
  if String.prefix "docker://" s
  then Ok {| types.Transport_Name := "docker";
             types.DockerReference_Name :=
               String.substring 9 (String.length s - 9) s |}
  else if String.prefix "dir:" s
  then Ok {| types.Transport_Name := "dir"; types.DockerReference_Name := "" |}
  else Err (External "invalid reference format").

(** A client that answers every search with [hits] and every tag listing
    with [tags]. *)
Definition sampleClient
    (hits : result (list dockerTransport.SearchResult))
    (tags : result (list string)) : RegistryClient :=
  {| SearchRegistry := fun _ _ _ _ => hits;
     ParseImageName := sampleParse;
     GetRepositoryTags := fun _ _ => tags |}.

(** A description of 50 characters, one of them a newline. *)
Definition fiftyCharacters : string :=
  String.append "0123456789012345678901234"
    (String newline "567890123456789012345678").

(** A client whose parser accepts nothing. *)
Definition deafClient : RegistryClient :=
  {| SearchRegistry := fun _ _ _ _ => Ok [];
     ParseImageName := fun _ => Err (External "invalid reference format");
     GetRepositoryTags := fun _ _ => Ok [] |}.

(** The goroutine of slot [index] gets the answer [answers !! index]. *)
Definition sampleNet (answers : list (result (list dockerTransport.SearchResult)))
    (index : nat) : RegistryClient :=
  sampleClient
    (default (Err (External "connection refused")) (answers !! index))
    (Ok []).

Definition sampleProvider (registries : result (list string))
    (sys : types.SystemContext) : result (list string) :=
  registries.

Definition threeRegistries : list string :=
  ["quay.io"; "docker.io"; "registry.example.com"].

Definition threeAnswers : list (result (list dockerTransport.SearchResult)) :=
  [Ok [sampleHit "coreos/etcd" 7 false];
   Err (External "unauthorized");
   Ok [sampleHit "etcd" 3 false; sampleHit "etcd-operator" 1 false]].

(** All three goroutines run at once and finish in the order 2, 0, 1. *)
Definition outOfOrder : list event :=
  [Acquired; Acquired; Acquired;
   SearchReturns 2; RunWgDone 2; SearchReturns 0; SearchReturns 1;
   RunWgDone 1; RunRelease 2; RunWgDone 0; RunRelease 1; RunRelease 0;
   WaitReturns].

Definition eightRegistries : list string :=
  ["r0.io"; "r1.io"; "r2.io"; "r3.io"; "r4.io"; "r5.io"; "r6.io"; "r7.io"].

Definition contextCanceled : error := External "context canceled".

(** Six goroutines hold every permit, the first has stored a hit, and the
    loop waits for the seventh permit. *)
Definition sixRunning : list event :=
  [Acquired; Acquired; Acquired; Acquired; Acquired; Acquired;
   SearchReturns 0].

(** ** Claims that do not hold, as they are stated *)

(** The claim C1 as it is stated, for one call under one schedule. *)
Definition errorOnlyForFailedQueries
    (UnqualifiedSearchRegistries : types.SystemContext -> result (list string))
    (net : nat -> RegistryClient) (r : Runtime) (term : string)
    (options : SearchOptions.t) (schedule : list event) : Prop :=
  forall results err,
    Search UnqualifiedSearchRegistries net r term options schedule
    = Some (results, err) ->
    err <> None
    <-> results = []
        /\ exists searchRegistries registries term' index d,
             UnqualifiedSearchRegistries (systemContext r)
             = Ok searchRegistries
             /\ splitTerm searchRegistries term = Some (registries, term')
             /\ outcome net r options registries term' index = Some d
             /\ searchOutputData.err d <> None.

(** The second half of the claim C8 as it is stated: results stored before
    the cancellation are returned in place of the cancellation error. *)
Definition resultsWinOverCancellation
    (net : nat -> RegistryClient) (r : Runtime) (options : SearchOptions.t)
    (searchRegistries : list string) (term : string)
    (before : list event) (e : error) : Prop :=
  forall s,
    run net r options searchRegistries term before
      (init searchRegistries) = Some s ->
    (exists index d,
       slots s !! index = Some d
       /\ searchOutputData.err d = None /\ searchOutputData.data d <> []) ->
    exists results,
      results <> []
      /\ dispatch net r options searchRegistries term
           (before ++ [Cancel e; AcquireFailed])
         = Some (results, None).

(** ** More sample inputs *)


Definition thirtyHits : list dockerTransport.SearchResult :=
  replicate 30 (sampleHit "alpine" 9 true).

Definition mixedHits : list dockerTransport.SearchResult :=
  [sampleHit "alpine" 9 true; sampleHit "foo/bar" 2 true;
   sampleHit "busybox" 7 false; sampleHit "debian" 5 true].

(** * Properties *)

Ltac step_inv H :=
  unfold step in H;
  repeat match type of H with
  | context [routines ?s !! ?j] =>
      destruct (routines s !! j) as [?g|] eqn:?Hg; simpl in H; [|done]
  | (if ?c then _ else _) = Some _ =>
      destruct c eqn:?Hc; [|done]
  end.

Ltac not_in_schedule :=
  repeat (apply not_elem_of_cons; split; [discriminate |]);
  apply not_elem_of_nil.

(** ** Facts about the [strings] functions *)

Lemma string_app_cons (c : ascii) (a b : string) :
  String c a +:+ b = String c (a +:+ b).
Proof. reflexivity. Qed.

Lemma string_app_nil (b : string) : "" +:+ b = b.
Proof. reflexivity. Qed.

Ltac string_simpl := rewrite ?string_app_cons, ?string_app_nil; simpl.

Lemma string_length_app (a b : string) :
  String.length (a +:+ b) = (String.length a + String.length b)%nat.
Proof. induction a as [|c a IH]; string_simpl; [done | by rewrite IH]. Qed.

Lemma string_app_assoc (a b c : string) : (a +:+ b) +:+ c = a +:+ (b +:+ c).
Proof. induction a as [|x a IH]; string_simpl; [done | by f_equal]. Qed.

Lemma Contains_get (s : string) (sep : ascii) :
  strings.Contains s sep = true <-> exists i, String.get i s = Some sep.
Proof.
  induction s as [|c s IH]; simpl.
  - split; [done | by intros [i ?]].
  - destruct (Ascii.eqb_spec c sep) as [->|Hne]; simpl.
    + split; [by exists 0%nat | done].
    + rewrite IH. split.
      * intros [i Hi]. by exists (S i).
      * intros [[|i] Hi]; [congruence | by exists i].
Qed.

Lemma Cut_first (before after : string) (sep : ascii) :
  strings.Contains before sep = false ->
  strings.Cut (before +:+ String sep after) sep = Some (before, after).
Proof.
  induction before as [|c before IH]; string_simpl.
  - by rewrite Ascii.eqb_refl.
  - intros [Hc Hb]%orb_false_iff. by rewrite Hc, IH.
Qed.

Lemma Cut_None (s : string) (sep : ascii) :
  strings.Contains s sep = false -> strings.Cut s sep = None.
Proof.
  induction s as [|c s IH]; simpl; [done |].
  intros [Hc Hs]%orb_false_iff. by rewrite Hc, IH.
Qed.

Lemma Cut_Some (s before after : string) (sep : ascii) :
  strings.Cut s sep = Some (before, after) ->
  s = before +:+ String sep after /\ strings.Contains before sep = false.
Proof.
  revert before. induction s as [|c s IH]; simpl; intros before; [done |].
  destruct (Ascii.eqb_spec c sep) as [->|Hne].
  - by intros [= <- <-].
  - destruct (strings.Cut s sep) as [[b a]|] eqn:Hcut; [|done].
    intros [= <- <-]. destruct (IH b eq_refl) as [-> Hb].
    split; [done |]. simpl. rewrite Hb.
    by destruct (Ascii.eqb_spec c sep).
Qed.

Lemma ReplaceAll_length (s : string) (old new : ascii) :
  String.length (strings.ReplaceAll s old new) = String.length s.
Proof. induction s as [|c s IH]; simpl; [done | by rewrite IH]. Qed.

Lemma ReplaceAll_get (s : string) (old new : ascii) (i : nat) :
  String.get i (strings.ReplaceAll s old new)
  = (fun c => if Ascii.eqb c old then new else c) <$> String.get i s.
Proof.
  revert i. induction s as [|c s IH]; intros [|i]; simpl; done.
Qed.

Lemma SliceTo_substring (s : string) (n : nat) :
  (n <= String.length s)%nat ->
  strings.SliceTo s n = Some (String.substring 0 n s).
Proof.
  revert s. induction n as [|n IH]; intros [|c s]; simpl; try done.
  - lia.
  - intros Hn. rewrite IH by lia. done.
Qed.

Lemma substring_length (s : string) (n : nat) :
  (n <= String.length s)%nat -> String.length (String.substring 0 n s) = n.
Proof.
  revert s. induction n as [|n IH]; intros [|c s]; simpl; try done; try lia.
  intros Hn. rewrite IH by lia. done.
Qed.

Lemma Cut_is_Some (s : string) (sep : ascii) :
  strings.Contains s sep = true -> is_Some (strings.Cut s sep).
Proof.
  induction s as [|c s IH]; simpl; [done |].
  destruct (Ascii.eqb c sep); simpl; [by eexists |].
  intros Hs. destruct (IH Hs) as [[before after] ->]. by eexists.
Qed.

(** ** Facts about the per-registry searcher *)

Lemma hitsLimit_le (options : SearchOptions.t)
    (results : list dockerTransport.SearchResult) :
  (Z.to_nat (hitsLimit options results) <= length results)%nat.
Proof.
  unfold hitsLimit, searchMaxQueries, len.
  repeat case_bool_decide; repeat case_match; lia.
Qed.

Lemma tagsLimit_le (options : SearchOptions.t) (tags : list string) :
  (Z.to_nat (tagsLimit options tags) <= length tags)%nat.
Proof.
  unfold tagsLimit, searchMaxQueries, len.
  repeat case_bool_decide; repeat case_match; lia.
Qed.

(** The limit policy for a limit that is not negative. *)
Lemma hitsLimit_nonneg (options : SearchOptions.t)
    (results : list dockerTransport.SearchResult) :
  0 <= SearchOptions.Limit options ->
  hitsLimit options results
  = if bool_decide (0 < SearchOptions.Limit options)
    then Z.min (SearchOptions.Limit options) (len results)
    else Z.min 25 (len results).
Proof.
  unfold hitsLimit, searchMaxQueries, len.
  repeat case_bool_decide; repeat case_match; lia.
Qed.

Lemma tagsLimit_nonneg (options : SearchOptions.t) (tags : list string) :
  0 <= SearchOptions.Limit options ->
  tagsLimit options tags
  = if bool_decide (0 < SearchOptions.Limit options)
    then Z.min (SearchOptions.Limit options) (len tags)
    else Z.min 25 (len tags).
Proof.
  unfold tagsLimit, searchMaxQueries, len.
  repeat case_bool_decide; repeat case_match; lia.
Qed.

Lemma formatHit_eq (options : SearchOptions.t) (registry index : string)
    (hit : dockerTransport.SearchResult) :
  formatHit options registry index hit
  = Some (specFormat options registry index hit).
Proof.
  unfold formatHit, specFormat, specDescription, specName.
  set (d := strings.ReplaceAll (dockerTransport.Description hit) newline space).
  assert (Hnm :
    (if bool_decide (index = "docker.io")
        && negb (strings.Contains (dockerTransport.Name hit) slash)
     then (index +:+ "/library/") +:+ dockerTransport.Name hit
     else (registry +:+ "/") +:+ dockerTransport.Name hit)
    = (if bool_decide (index = "docker.io")
          && negb (strings.Contains (dockerTransport.Name hit) slash)
       then "docker.io/library/" +:+ dockerTransport.Name hit
       else registry +:+ "/" +:+ dockerTransport.Name hit)).
  { case_bool_decide as Hidx; simpl.
    - subst index. destruct (negb _); [done | by rewrite string_app_assoc].
    - by rewrite string_app_assoc. }
  rewrite Hnm. clear Hnm.
  destruct (SearchOptions.NoTrunc options); simpl.
  - rewrite !andb_false_r. done.
  - rewrite !andb_true_r.
    destruct (bool_decide (44 < String.length d)%nat) eqn:Hlen.
    + apply bool_decide_eq_true in Hlen.
      destruct (Z.gtb_spec (Z.of_nat (String.length d)) 44); [|lia].
      rewrite SliceTo_substring by (unfold searchTruncLength; lia).
      done.
    + apply bool_decide_eq_false in Hlen.
      destruct (Z.gtb_spec (Z.of_nat (String.length d)) 44); [lia |].
      done.
Qed.

Lemma formatHit_is_Some (options : SearchOptions.t) (registry index : string)
    (hit : dockerTransport.SearchResult) :
  is_Some (formatHit options registry index hit).
Proof. rewrite formatHit_eq. by eexists. Qed.

Lemma hitsLoop_spec (options : SearchOptions.t) (registry index : string)
    (results : list dockerTransport.SearchResult)
    (steps i : nat) (paramsArr : list SearchResult.t) :
  (i + steps <= length results)%nat ->
  hitsLoop options registry index results steps i paramsArr
  = (fun rs => paramsArr ++ rs) <$>
      mapM (formatHit options registry index)
        (List.filter (matchesFilters (SearchOptions.Filter options))
           (take steps (drop i results))).
Proof.
  revert i paramsArr. induction steps as [|steps IH]; intros i acc Hle.
  - simpl. by rewrite app_nil_r.
  - destruct (lookup_lt_is_Some_2 results i) as [hit Hhit]; [lia |].
    rewrite (drop_S _ _ _ Hhit). simpl. rewrite Hhit. simpl.
    destruct (matchesFilters _ hit) eqn:Hm; simpl.
    + destruct (formatHit options registry index hit) as [params|]; [|done].
      simpl. rewrite IH by lia.
      destruct (mapM _ _) as [rs|]; simpl; [|done].
      by rewrite <- app_assoc.
    + apply IH. lia.
Qed.

Lemma tagsLoop_spec (imageRef : types.ImageReference) (tags : list string)
    (steps i : nat) (paramsArr : list SearchResult.t) :
  (i + steps <= length tags)%nat ->
  tagsLoop imageRef tags steps i paramsArr
  = Some (paramsArr ++ (tagParams imageRef <$> take steps (drop i tags))).
Proof.
  revert i paramsArr. induction steps as [|steps IH]; intros i acc Hle.
  - simpl. by rewrite app_nil_r.
  - destruct (lookup_lt_is_Some_2 tags i) as [tag Htag]; [lia |].
    rewrite (drop_S _ _ _ Htag). simpl. rewrite Htag. simpl.
    rewrite IH by lia. by rewrite <- app_assoc.
Qed.

Section PerRegistryFacts.

Context (client : RegistryClient).

Lemma searchRepositoryTags_is_Some (sys : types.SystemContext)
    (registry term : string) (options : SearchOptions.t) :
  is_Some (searchRepositoryTags client sys registry term options).
Proof.
  unfold searchRepositoryTags.
  destruct (tagsReference _ _ _) as [imageRef|e]; [|by eexists].
  destruct (GetRepositoryTags _ _ _) as [tags|e]; [|by eexists].
  simpl. rewrite tagsLoop_spec by (pose proof (tagsLimit_le options tags); lia).
  by eexists.
Qed.

Lemma searchImageInRegistry_search (r : Runtime) (term registry : string)
    (options : SearchOptions.t)
    (results : list dockerTransport.SearchResult) :
  SearchOptions.ListTags options = false ->
  SearchRegistry client (clientContext r options) registry term
    (requestedLimit options) = Ok results ->
  searchImageInRegistry client r term registry options
  = Some (specFormat options registry (shortenIndex registry) <$>
            List.filter (matchesFilters (SearchOptions.Filter options))
              (take (Z.to_nat (hitsLimit options results)) results),
          None).
Proof.
  intros Hmode Hok. unfold searchImageInRegistry.
  rewrite Hmode. fold (clientContext r options) (requestedLimit options).
  rewrite Hok. simpl.
  rewrite hitsLoop_spec by (pose proof (hitsLimit_le options results); lia).
  rewrite drop_0.
  erewrite mapM_Some_2; [done |].
  apply Forall2_fmap_r, Forall_Forall2_diag, Forall_forall.
  intros hit _. apply formatHit_eq.
Qed.

Lemma searchImageInRegistry_failed (r : Runtime) (term registry : string)
    (options : SearchOptions.t) (e : error) :
  SearchOptions.ListTags options = false ->
  SearchRegistry client (clientContext r options) registry term
    (requestedLimit options) = Err e ->
  searchImageInRegistry client r term registry options = Some ([], Some e).
Proof.
  intros Hmode Herr. unfold searchImageInRegistry.
  rewrite Hmode. fold (clientContext r options) (requestedLimit options).
  by rewrite Herr.
Qed.

Lemma searchImageInRegistry_tags (r : Runtime) (term registry : string)
    (options : SearchOptions.t) :
  SearchOptions.ListTags options = true ->
  searchImageInRegistry client r term registry options
  = '(results, err) ←
      searchRepositoryTags client (clientContext r options)
        registry term options;
    Some (if err is Some _ then [] else results, err).
Proof.
  intros Hmode. unfold searchImageInRegistry. rewrite Hmode.
  fold (clientContext r options).
  destruct (searchRepositoryTags _ _ _ _ _) as [[rs [e|]]|]; done.
Qed.

Lemma searchImageInRegistry_tags_eq (r : Runtime) (term registry : string)
    (options : SearchOptions.t) :
  SearchOptions.ListTags options = true ->
  searchImageInRegistry client r term registry options
  = searchRepositoryTags client (clientContext r options)
      registry term options.
Proof.
  intros Hmode. rewrite searchImageInRegistry_tags by done.
  unfold searchRepositoryTags.
  destruct (tagsReference _ _ _) as [imageRef|e]; [|done].
  destruct (GetRepositoryTags _ _ _) as [tags|e]; [|done].
  simpl.
  by rewrite tagsLoop_spec by (pose proof (tagsLimit_le options tags); lia).
Qed.

Lemma searchImageInRegistry_is_Some (r : Runtime) (term registry : string)
    (options : SearchOptions.t) :
  is_Some (searchImageInRegistry client r term registry options).
Proof.
  destruct (SearchOptions.ListTags options) eqn:Hmode.
  - unfold searchImageInRegistry. rewrite Hmode.
    destruct (searchRepositoryTags_is_Some
      (clientContext r options) registry term options) as [[rs e] Hrs].
    fold (clientContext r options). rewrite Hrs. simpl.
    destruct e; by eexists.
  - destruct (SearchRegistry client (clientContext r options) registry term
      (requestedLimit options)) as [results|e] eqn:Hq.
    + rewrite (searchImageInRegistry_search r term registry options results
        Hmode Hq). by eexists.
    + rewrite (searchImageInRegistry_failed r term registry options e
        Hmode Hq). by eexists.
Qed.

End PerRegistryFacts.

(** ** The limit policy *)

(** A negative limit empties the retained set, whatever the raw count. *)
Lemma hitsLimit_negative (options : SearchOptions.t)
    (results : list dockerTransport.SearchResult) :
  SearchOptions.Limit options < 0 ->
  hitsLimit options results = SearchOptions.Limit options.
Proof.
  unfold hitsLimit, searchMaxQueries, len.
  repeat case_bool_decide; repeat case_match; lia.
Qed.

Lemma tagsLimit_negative (options : SearchOptions.t) (tags : list string) :
  SearchOptions.Limit options < 0 ->
  tagsLimit options tags = SearchOptions.Limit options.
Proof.
  unfold tagsLimit, searchMaxQueries, len.
  repeat case_bool_decide; repeat case_match; lia.
Qed.

(** The four cases the specification lists. *)
Example limit_policy_examples :
  let hits n := replicate n (sampleHit "alpine" 3 true) in
  let options limit := sampleOptions noFilter limit false in
  hitsLimit (options 0) (hits 10%nat) = 10
  /\ hitsLimit (options 0) (hits 30%nat) = 25
  /\ hitsLimit (options 5) (hits 30%nat) = 5
  /\ hitsLimit (options 5) (hits 3%nat) = 3
  /\ tagsLimit (options 0) (replicate 10 "v1") = 10
  /\ tagsLimit (options 0) (replicate 30 "v1") = 25
  /\ tagsLimit (options 5) (replicate 30 "v1") = 5
  /\ tagsLimit (options 5) (replicate 3 "v1") = 3.
Proof. repeat split; reflexivity. Qed.

(** C3 (the code departs from the claim): with 10 raw items and
    [Limit = -1], which is not an explicit positive limit, the claim retains
    [min(25, 10) = 10] items, but both modes compute the limit [-1], visit no
    item and return an empty result. *)
Theorem limit_policy_negative_limit :
  let hits := replicate 10 (sampleHit "alpine" 3 true) in
  let tags := replicate 10 "v1" in
  let client := sampleClient (Ok hits) (Ok tags) in
  hitsLimit (sampleOptions noFilter (-1) false) hits = -1
  /\ tagsLimit (sampleOptions noFilter (-1) true) tags = -1
  /\ searchImageInRegistry client sampleRuntime "alpine" "docker.io"
       (sampleOptions noFilter (-1) false) = Some ([], None)
  /\ searchImageInRegistry client sampleRuntime "alpine" "docker.io"
       (sampleOptions noFilter (-1) true) = Some ([], None)
  /\ requestedLimit (sampleOptions noFilter (-1) false) = 25.
Proof. repeat split; vm_compute; reflexivity. Qed.

(** ** The result filter *)

Lemma matchesAutomatedFilter_spec (f : SearchFilter.t)
    (hit : dockerTransport.SearchResult) :
  matchesAutomatedFilter f hit = true
  <-> triStateAccepts (SearchFilter.IsAutomated f)
        (dockerTransport.IsAutomated hit).
Proof.
  unfold matchesAutomatedFilter.
  destruct (SearchFilter.IsAutomated f), (dockerTransport.IsAutomated hit);
    simpl; intuition congruence.
Qed.

Lemma matchesOfficialFilter_spec (f : SearchFilter.t)
    (hit : dockerTransport.SearchResult) :
  matchesOfficialFilter f hit = true
  <-> triStateAccepts (SearchFilter.IsOfficial f)
        (dockerTransport.IsOfficial hit).
Proof.
  unfold matchesOfficialFilter.
  destruct (SearchFilter.IsOfficial f), (dockerTransport.IsOfficial hit);
    simpl; intuition congruence.
Qed.

Lemma matchesStarFilter_spec (f : SearchFilter.t)
    (hit : dockerTransport.SearchResult) :
  matchesStarFilter f hit = true
  <-> SearchFilter.Stars f <= dockerTransport.StarCount hit.
Proof. unfold matchesStarFilter. lia. Qed.

(** C7: a raw hit passes the filter exactly when its star count reaches the
    configured minimum and its automated and official flags are accepted by
    the two tri-state fields, an unset field accepting everything; and the
    results of a repository search are the formatted hits that pass, in
    order: a hit that does not pass yields no result. *)
Theorem filter_three_predicates
    (client : RegistryClient) (r : Runtime) (term registry : string)
    (options : SearchOptions.t)
    (results : list dockerTransport.SearchResult) :
  SearchOptions.ListTags options = false ->
  SearchRegistry client (clientContext r options) registry term
    (requestedLimit options) = Ok results ->
  (forall hit,
     matchesFilters (SearchOptions.Filter options) hit = true
     <-> SearchFilter.Stars (SearchOptions.Filter options)
           <= dockerTransport.StarCount hit
         /\ triStateAccepts
              (SearchFilter.IsAutomated (SearchOptions.Filter options))
              (dockerTransport.IsAutomated hit)
         /\ triStateAccepts
              (SearchFilter.IsOfficial (SearchOptions.Filter options))
              (dockerTransport.IsOfficial hit))
  /\ exists paramsArr,
       searchImageInRegistry client r term registry options
       = Some (paramsArr, None)
       /\ Forall2
            (fun hit params =>
               formatHit options registry (shortenIndex registry) hit
               = Some params)
            (List.filter (matchesFilters (SearchOptions.Filter options))
               (take (Z.to_nat (hitsLimit options results)) results))
            paramsArr.
Proof.
  intros Hmode Hok. split.
  - intros hit. unfold matchesFilters.
    rewrite !andb_true_iff, matchesAutomatedFilter_spec,
      matchesOfficialFilter_spec, matchesStarFilter_spec.
    tauto.
  - eexists. split.
    + by apply searchImageInRegistry_search.
    + apply Forall2_fmap_r, Forall_Forall2_diag, Forall_forall.
      intros hit _. apply formatHit_eq.
Qed.

Lemma filter_three_predicates_witness :
  let hits := [sampleHit "alpine" 9 true; sampleHit "foo/bar" 2 true;
               sampleHit "busybox" 7 false; sampleHit "debian" 5 true] in
  let client := sampleClient (Ok hits) (Ok []) in
  let options := sampleOptions officialFilter 0 false in
  (matchesFilters officialFilter (sampleHit "alpine" 9 true) = true
   <-> 5 <= 9 /\ True /\ true = true)
  /\ (matchesFilters officialFilter (sampleHit "busybox" 7 false) = true
      <-> 5 <= 7 /\ True /\ false = true)
  /\ exists paramsArr,
       searchImageInRegistry client sampleRuntime "a" "docker.io" options
       = Some (paramsArr, None)
       /\ Forall2
            (fun hit params =>
               formatHit options "docker.io" (shortenIndex "docker.io") hit
               = Some params)
            [sampleHit "alpine" 9 true; sampleHit "debian" 5 true]
            paramsArr.
Proof.
  intros hits client options.
  destruct (filter_three_predicates client sampleRuntime "a" "docker.io"
    options hits eq_refl eq_refl) as [Hiff Hout].
  split; [apply Hiff | split; [apply Hiff | apply Hout]].
Defined.

(** ** The result formatter *)

Lemma specDescription_cut (options : SearchOptions.t) (raw : string) :
  let d := strings.ReplaceAll raw newline space in
  SearchOptions.NoTrunc options = false ->
  (44 < String.length d)%nat ->
  specDescription options raw = String.substring 0 44 d +:+ "..."
  /\ String.length (specDescription options raw) = 47%nat.
Proof.
  intros d Htrunc Hlen. unfold specDescription. fold d.
  rewrite Htrunc, bool_decide_eq_true_2 by done. simpl.
  split; [done |].
  rewrite string_length_app, substring_length by lia. done.
Qed.

Lemma specDescription_full (options : SearchOptions.t) (raw : string) :
  let d := strings.ReplaceAll raw newline space in
  SearchOptions.NoTrunc options = true \/ (String.length d <= 44)%nat ->
  specDescription options raw = d.
Proof.
  intros d Hfull. unfold specDescription. fold d.
  destruct Hfull as [-> | Hlen].
  - by rewrite andb_false_r.
  - rewrite bool_decide_eq_false_2 by lia. done.
Qed.

(** C5: the description of every result of a repository search is the raw
    description with each newline replaced by a space and then, when that
    text is longer than 44 characters and [NoTrunc] is false, cut to its
    first 44 characters followed by ["..."], 47 characters in all; with
    [NoTrunc] true, or for a text of at most 44 characters, it is the whole
    newline-free text.  A character is a byte of the Go string. *)
Theorem description_truncation
    (client : RegistryClient) (r : Runtime) (term registry : string)
    (options : SearchOptions.t)
    (results : list dockerTransport.SearchResult) :
  SearchOptions.ListTags options = false ->
  SearchRegistry client (clientContext r options) registry term
    (requestedLimit options) = Ok results ->
  (exists paramsArr,
     searchImageInRegistry client r term registry options
     = Some (paramsArr, None)
     /\ SearchResult.Description <$> paramsArr
        = (fun hit => specDescription options (dockerTransport.Description hit))
          <$> List.filter (matchesFilters (SearchOptions.Filter options))
                (take (Z.to_nat (hitsLimit options results)) results))
  /\ forall raw,
       let d := strings.ReplaceAll raw newline space in
       String.length d = String.length raw
       /\ (forall i,
             String.get i d
             = (fun c => if Ascii.eqb c newline then space else c)
               <$> String.get i raw)
       /\ (SearchOptions.NoTrunc options = false ->
           (44 < String.length d)%nat ->
           specDescription options raw = String.substring 0 44 d +:+ "..."
           /\ String.length (specDescription options raw) = 47%nat)
       /\ (SearchOptions.NoTrunc options = true
           \/ (String.length d <= 44)%nat ->
           specDescription options raw = d).
Proof.
  intros Hmode Hok. split.
  - eexists. split; [by apply searchImageInRegistry_search |].
    by rewrite <- list_fmap_compose.
  - intros raw d. split; [apply ReplaceAll_length |].
    split; [intros i; apply ReplaceAll_get |].
    split; [apply specDescription_cut | apply specDescription_full].
Qed.

Lemma description_truncation_witness :
  let hit :=
    {| dockerTransport.Name := "alpine";
       dockerTransport.Description := fiftyCharacters;
       dockerTransport.StarCount := 1;
       dockerTransport.IsAutomated := false;
       dockerTransport.IsOfficial := false |} in
  let client := sampleClient (Ok [hit]) (Ok []) in
  let options := sampleOptions noFilter 0 false in
  String.length fiftyCharacters = 50%nat
  /\ (exists paramsArr,
        searchImageInRegistry client sampleRuntime "alpine" "docker.io" options
        = Some (paramsArr, None)
        /\ SearchResult.Description <$> paramsArr
           = ["0123456789012345678901234 567890123456789012..."])
  /\ String.length (specDescription options fiftyCharacters) = 47%nat.
Proof.
  intros hit client options.
  destruct (description_truncation client sampleRuntime "alpine" "docker.io"
    options [hit] eq_refl eq_refl) as [Hout Hshape].
  split; [reflexivity |]. split; [apply Hout |].
  apply (Hshape fiftyCharacters); [reflexivity | vm_compute; lia].
Defined.

(** C6: the name of every result of a repository search is
    [registry + "/" + hit.Name], except that it is
    ["docker.io/library/" + hit.Name] when the shortened index is
    ["docker.io"] and [hit.Name] holds no ['/']. *)
Theorem docker_hub_library_name
    (client : RegistryClient) (r : Runtime) (term registry : string)
    (options : SearchOptions.t)
    (results : list dockerTransport.SearchResult) :
  SearchOptions.ListTags options = false ->
  SearchRegistry client (clientContext r options) registry term
    (requestedLimit options) = Ok results ->
  (exists paramsArr,
     searchImageInRegistry client r term registry options
     = Some (paramsArr, None)
     /\ SearchResult.Name <$> paramsArr
        = (fun hit =>
             if bool_decide (shortenIndex registry = "docker.io")
                && negb (strings.Contains (dockerTransport.Name hit) slash)
             then "docker.io/library/" +:+ dockerTransport.Name hit
             else registry +:+ "/" +:+ dockerTransport.Name hit)
          <$> List.filter (matchesFilters (SearchOptions.Filter options))
                (take (Z.to_nat (hitsLimit options results)) results))
  /\ forall name,
       strings.Contains name slash = true
       <-> exists i, String.get i name = Some slash.
Proof.
  intros Hmode Hok. split.
  - eexists. split; [by apply searchImageInRegistry_search |].
    by rewrite <- list_fmap_compose.
  - intros name. apply Contains_get.
Qed.

Lemma docker_hub_library_name_witness :
  let hits := [sampleHit "alpine" 9 true; sampleHit "foo/bar" 2 false] in
  let client := sampleClient (Ok hits) (Ok []) in
  let options := sampleOptions noFilter 0 false in
  exists paramsArr,
    searchImageInRegistry client sampleRuntime "a" "docker.io" options
    = Some (paramsArr, None)
    /\ SearchResult.Name <$> paramsArr
       = ["docker.io/library/alpine"; "docker.io/foo/bar"].
Proof.
  intros hits client options.
  apply (docker_hub_library_name client sampleRuntime "a" "docker.io"
    options hits eq_refl eq_refl).
Defined.

(** A registry host below [docker.io] shortens to it. *)
Example shortenIndex_examples :
  shortenIndex "docker.io" = "docker.io"
  /\ shortenIndex "registry.docker.io" = "docker.io"
  /\ shortenIndex "a.b.c.d" = "c.d"
  /\ shortenIndex "localhost" = "localhost".
Proof. repeat split; reflexivity. Qed.

(** ** Tag listing *)

(** C9: in tag-listing mode the reference [registry/term] must parse to a
    docker reference.  Parsed to another transport, the query fails with the
    error [reference %q must be a docker reference]; not parsed at all, the
    form prefixed with ["docker://"] is parsed, and the query fails with the
    same error when that fails too.  A failure to retrieve the tags is
    wrapped as [error getting repository tags: %v].  Otherwise there is one
    result per retained tag, holding the name of the reference and the tag
    and the zero value in every other field. *)
Theorem tag_listing
    (client : RegistryClient) (sys : types.SystemContext)
    (registry term : string) (options : SearchOptions.t) :
  let plain := ParseImageName client ((registry +:+ "/") +:+ term) in
  let prefixed :=
    ParseImageName client ("docker://" +:+ ((registry +:+ "/") +:+ term)) in
  let run := searchRepositoryTags client sys registry term options in
  (forall r,
     SearchOptions.ListTags options = true ->
     searchImageInRegistry client r term registry options
     = searchRepositoryTags client (clientContext r options)
         registry term options)
  /\ (forall imageRef,
     plain = Ok imageRef -> types.Transport_Name imageRef <> "docker" ->
     run = Some ([], Some (Errorf_s "reference %q must be a docker reference"
                             term)))
  /\ (forall e e',
        plain = Err e -> prefixed = Err e' ->
        run = Some ([], Some (Errorf_s
                                "reference %q must be a docker reference"
                                term)))
  /\ (forall imageRef,
        plain = Ok imageRef /\ types.Transport_Name imageRef = "docker"
        \/ (exists e, plain = Err e) /\ prefixed = Ok imageRef ->
        (forall e,
           GetRepositoryTags client sys imageRef = Err e ->
           run = Some ([], Some (Errorf_v
                                   "error getting repository tags: %v" e)))
        /\ (forall tags,
              GetRepositoryTags client sys imageRef = Ok tags ->
              run
              = Some ((fun tag =>
                         {| SearchResult.Index := "";
                            SearchResult.Name :=
                              types.DockerReference_Name imageRef;
                            SearchResult.Description := "";
                            SearchResult.Stars := 0;
                            SearchResult.Official := "";
                            SearchResult.Automated := "";
                            SearchResult.Tag := tag |})
                      <$> take (Z.to_nat (tagsLimit options tags)) tags,
                      None))).
Proof.
  intros plain prefixed run.
  assert (Htags : forall imageRef,
    tagsReference client registry term = Ok imageRef ->
    (forall e,
       GetRepositoryTags client sys imageRef = Err e ->
       run = Some ([], Some (errGettingRepositoryTags e)))
    /\ (forall tags,
          GetRepositoryTags client sys imageRef = Ok tags ->
          run = Some (tagParams imageRef
                        <$> take (Z.to_nat (tagsLimit options tags)) tags,
                      None))).
  { intros imageRef Href. subst run. unfold searchRepositoryTags.
    rewrite Href. split.
    - by intros e ->.
    - intros tags ->. simpl.
      rewrite tagsLoop_spec
        by (pose proof (tagsLimit_le options tags); lia).
      by rewrite drop_0. }
  split; [| split; [| split]].
  - intros r Hmode. by apply searchImageInRegistry_tags_eq.
  - intros imageRef Hplain Hother. subst run.
    unfold searchRepositoryTags, tagsReference. fold plain. rewrite Hplain.
    by rewrite bool_decide_eq_true_2.
  - intros e e' Hplain Hprefixed. subst run.
    unfold searchRepositoryTags, tagsReference. fold plain. rewrite Hplain.
    simpl. fold prefixed. by rewrite Hprefixed.
  - intros imageRef Href. apply Htags.
    unfold tagsReference. fold plain.
    destruct Href as [[-> Hdocker] | [[e ->] Hprefixed]].
    + by rewrite bool_decide_eq_false_2 by (by intros []).
    + simpl. fold prefixed. by rewrite Hprefixed.
Qed.

Lemma tag_listing_witness :
  let options := sampleOptions noFilter 2 true in
  let sys := systemContext sampleRuntime in
  let tags := ["3.18"; "3.19"; "latest"] in
  searchImageInRegistry (sampleClient (Ok []) (Ok tags)) sampleRuntime
    "alpine" "dir:images" options
  = Some ([], Some (Errorf_s "reference %q must be a docker reference"
                      "alpine"))
  /\ searchRepositoryTags deafClient sys "quay.io" "alpine" options
     = Some ([], Some (Errorf_s "reference %q must be a docker reference"
                         "alpine"))
  /\ searchRepositoryTags
       (sampleClient (Ok []) (Err (External "unauthorized"))) sys
       "quay.io" "alpine" options
     = Some ([], Some (Errorf_v "error getting repository tags: %v"
                         (External "unauthorized")))
  /\ searchRepositoryTags (sampleClient (Ok []) (Ok tags)) sys
       "quay.io" "alpine" options
     = Some ([tagParams (types.Build_ImageReference "docker" "quay.io/alpine")
                "3.18";
              tagParams (types.Build_ImageReference "docker" "quay.io/alpine")
                "3.19"],
             None).
Proof.
  intros options sys tags. split; [| split; [| split]].
  - destruct (tag_listing (sampleClient (Ok []) (Ok tags)) sys
      "dir:images" "alpine" options) as (Hwrap & Hother & _).
    rewrite (Hwrap sampleRuntime eq_refl).
    apply (Hother (types.Build_ImageReference "dir" "")); [reflexivity |].
    simpl. discriminate.
  - destruct (tag_listing deafClient sys "quay.io" "alpine" options)
      as (_ & _ & Hnone & _).
    by eapply Hnone.
  - destruct (tag_listing
      (sampleClient (Ok []) (Err (External "unauthorized"))) sys
      "quay.io" "alpine" options) as (_ & _ & _ & Htags).
    destruct (Htags (types.Build_ImageReference "docker" "quay.io/alpine"))
      as [Hfail _].
    + right. split; [by eexists | reflexivity].
    + rewrite (Hfail (External "unauthorized") eq_refl). reflexivity.
  - destruct (tag_listing (sampleClient (Ok []) (Ok tags)) sys
      "quay.io" "alpine" options) as (_ & _ & _ & Htags).
    destruct (Htags (types.Build_ImageReference "docker" "quay.io/alpine"))
      as [_ Hlist].
    + right. split; [by eexists | reflexivity].
    + rewrite (Hlist tags eq_refl). reflexivity.
Defined.

(** ** Facts about the aggregation *)

Lemma causes_snoc (errs : list error) (e : error) :
  (errs ++ [e]) ≫= multierror.causes
  = (errs ≫= multierror.causes) ++ multierror.causes e.
Proof. rewrite bind_app. simpl. by rewrite app_nil_r. Qed.

Lemma collect_spec (data : list searchOutputData.t)
    (results : list SearchResult.t) (errs : list error) :
  collect data results (multiErrorOf errs)
  = (results ++ successes data, multiErrorOf (errs ++ failures data)).
Proof.
  revert results errs. induction data as [|d data IH]; intros results errs.
  - simpl. unfold successes, failures. simpl. by rewrite !app_nil_r.
  - simpl. destruct d as [out [e|]]; simpl.
    + replace (Some (multierror.Append (multiErrorOf errs) e))
        with (multiErrorOf (errs ++ [e])).
      * rewrite IH. unfold failures. simpl. by rewrite <- app_assoc.
      * unfold multierror.Append.
        destruct errs as [|e0 errs]; [simpl; by rewrite app_nil_r |].
        apply (f_equal (fun x => Some (MultiError x))),
          (causes_snoc (e0 :: errs) e).
    + rewrite IH. unfold successes, failures. simpl.
      by rewrite app_assoc.
Qed.

Lemma aggregate_spec (data : list searchOutputData.t) :
  aggregate data
  = (successes data,
     if successes data is [] then multiErrorOf (failures data) else None).
Proof.
  unfold aggregate.
  change (@None error) with (multiErrorOf []) at 1.
  rewrite collect_spec. simpl.
  destruct (successes data) as [|x l]; simpl; [done |].
  unfold len. simpl. by destruct (Z.gtb_spec (Z.pos (Pos.of_succ_nat (length l))) 0); [|lia].
Qed.

(** ** Facts about counting goroutines *)

Lemma countIf_insert (p : goroutine -> bool) (l : list goroutine)
    (j : nat) (g g' : goroutine) :
  l !! j = Some g ->
  countIf p (<[j:=g']> l) = countIf p l - b2z (p g) + b2z (p g').
Proof.
  unfold countIf, len. revert j.
  induction l as [|a l IH]; intros [|j] Hj; simplify_eq/=.
  - destruct (p g), (p g'); simpl; lia.
  - specialize (IH j Hj). destruct (p a); simpl in *; lia.
Qed.

Lemma countIf_bounds (p : goroutine -> bool) (l : list goroutine) :
  0 <= countIf p l <= len l.
Proof.
  unfold countIf, len.
  induction l as [|a l IH]; simpl; [lia |].
  destruct (p a); simpl; lia.
Qed.

Lemma countIf_all (p : goroutine -> bool) (l : list goroutine) :
  countIf p l = len l -> Forall (fun g => p g = true) l.
Proof.
  unfold countIf, len.
  induction l as [|a l IH]; simpl; [constructor |].
  pose proof (countIf_bounds p l) as Hb. unfold countIf, len in Hb.
  destruct (p a) eqn:Ha; simpl; intros Hc; [|lia].
  constructor; [done |]. apply IH. lia.
Qed.

Lemma countIf_none (p : goroutine -> bool) (l : list goroutine) :
  Forall (fun g => p g = false) l -> countIf p l = 0.
Proof.
  unfold countIf, len. induction 1 as [|a l Ha _ IH]; simpl; [done |].
  by rewrite Ha.
Qed.

Lemma countIf_pos (p : goroutine -> bool) (l : list goroutine)
    (j : nat) (g : goroutine) :
  l !! j = Some g -> p g = true -> 1 <= countIf p l.
Proof.
  unfold countIf, len. revert j.
  induction l as [|a l IH]; intros [|j] Hj Hp; simplify_eq/=.
  - rewrite Hp. simpl. lia.
  - specialize (IH j Hj Hp). destruct (p a); simpl; lia.
Qed.

Lemma countIf_lt (p : goroutine -> bool) (l : list goroutine)
    (j : nat) (g : goroutine) :
  l !! j = Some g -> p g = false -> countIf p l < len l.
Proof.
  unfold countIf, len. revert j.
  induction l as [|a l IH]; intros [|j] Hj Hp; simplify_eq/=.
  - rewrite Hp. pose proof (countIf_bounds p l) as Hb.
    unfold countIf, len in Hb. lia.
  - specialize (IH j Hj Hp). destruct (p a); simpl; lia.
Qed.

Lemma work_insert (l : list goroutine) (j : nat) (g g' : goroutine) :
  l !! j = Some g ->
  (work (<[j:=g']> l) + remaining g = work l + remaining g')%nat.
Proof.
  unfold work. revert j.
  induction l as [|a l IH]; intros [|j] Hj; simplify_eq/=; [lia |].
  specialize (IH j Hj). lia.
Qed.

Lemma countIf_all_iff (p : goroutine -> bool) (l : list goroutine) :
  Forall (fun g => p g = true) l -> countIf p l = len l.
Proof.
  unfold countIf, len. induction 1 as [|a l Ha _ IH]; simpl; [done |].
  rewrite Ha. simpl. lia.
Qed.

(** ** The invariant of the dispatcher *)

Section DispatcherFacts.

Context (net : nat -> RegistryClient).
Context (r : Runtime) (options : SearchOptions.t).
Context (searchRegistries : list string) (term : string).

Local Abbreviation outcome := (outcome net r options searchRegistries term).
Local Abbreviation wf := (wf net r options searchRegistries term).

Lemma wf_init : wf (init searchRegistries).
Proof.
  split; simpl; try done.
  - by rewrite length_replicate.
  - by rewrite length_replicate.
  - lia.
  - intros j g [-> _]%lookup_replicate. split; [lia | done].
  - symmetry. apply countIf_none, Forall_forall.
    by intros g [-> _]%elem_of_replicate.
  - rewrite countIf_none; [lia |]. apply Forall_forall.
    by intros g [-> _]%elem_of_replicate.
  - intros j g [-> Hj]%lookup_replicate. simpl.
    by apply lookup_replicate.
Qed.

Lemma step_wf (ev : event) (s s' : state) :
  wf s -> step net r options searchRegistries term ev s = Some s' ->
  wf s'.
Proof.
  intros Hwf Hstep. destruct ev as [e| | |j|j|j|].
  - (* Cancel *)
    simpl in Hstep. destruct (ctx_err s) eqn:Hctx; [done |].
    simplify_eq. destruct Hwf. split; simpl; try done.
    intros res Hres. destruct (wf_returned0 res Hres) as [(e' & ? & _)|?];
      [congruence | by right].
  - (* Acquired *)
    step_inv Hstep. simplify_eq.
    apply andb_true_iff in Hc as [Hc Hsem].
    apply andb_true_iff in Hc as [Hret Hnext].
    apply bool_decide_eq_true in Hret, Hnext.
    destruct Hwf.
    destruct (lookup_lt_is_Some_2 (routines s) (next s)) as [g Hg];
      [lia |].
    assert (g = NotStarted) as -> by (by apply (wf_started0 (next s))).
    split; simpl.
    + by rewrite length_insert.
    + done.
    + lia.
    + intros j g. destruct (decide (j = next s)) as [->|Hne].
      * rewrite list_lookup_insert_eq by lia. intros [= <-].
        split; [done | lia].
      * rewrite list_lookup_insert_ne by done. intros Hj.
        rewrite (wf_started0 j g Hj). lia.
    + rewrite (countIf_insert _ _ _ _ _ Hg). simpl. lia.
    + unfold searchMaxParallel in *. lia.
    + rewrite (countIf_insert _ _ _ _ _ Hg). simpl. lia.
    + intros j g. destruct (decide (j = next s)) as [->|Hne].
      * rewrite list_lookup_insert_eq by lia. intros [= <-]. simpl.
        by apply (wf_stored0 _ _ Hg).
      * rewrite list_lookup_insert_ne by done. apply wf_stored0.
    + intros res Hres. congruence.
  - (* AcquireFailed *)
    step_inv Hstep.
    destruct (ctx_err s) as [e|] eqn:Hctx; simpl in Hstep; [|done].
    simplify_eq.
    apply andb_true_iff in Hc as [Hret Hnext].
    apply bool_decide_eq_true in Hret, Hnext.
    destruct Hwf. split; simpl; try done.
    intros res [= <-]. left. by exists e.
  - (* SearchReturns *)
    step_inv Hstep. apply bool_decide_eq_true in Hc. subst g.
    destruct (searchRegistries !! j) as [registry|] eqn:Hreg;
      simpl in Hstep; [|done].
    destruct (searchImageInRegistry _ _ _ _ _) as [[out e]|] eqn:Hout;
      simpl in Hstep; [|done].
    simplify_eq. destruct Hwf.
    pose proof (lookup_lt_Some _ _ _ Hg) as Hlt.
    split; simpl.
    + by rewrite length_insert.
    + by rewrite length_insert.
    + done.
    + intros i g. destruct (decide (i = j)) as [->|Hne].
      * rewrite list_lookup_insert_eq by done. intros [= <-].
        pose proof (wf_started0 _ _ Hg). intuition congruence.
      * rewrite list_lookup_insert_ne by done. apply wf_started0.
    + rewrite (countIf_insert _ _ _ _ _ Hg). simpl. lia.
    + done.
    + rewrite (countIf_insert _ _ _ _ _ Hg). simpl. lia.
    + intros i g. destruct (decide (i = j)) as [->|Hne].
      * rewrite !list_lookup_insert_eq by lia. intros [= <-]. simpl.
        unfold outcome. rewrite Hreg. simpl. by rewrite Hout.
      * rewrite !list_lookup_insert_ne by done. apply wf_stored0.
    + intros res Hres.
      destruct (wf_returned0 res Hres) as [?|(? & Hall & ?)]; [by left |].
      rewrite Forall_forall in Hall.
      assert (hasSignalled Searching = true); [|done].
      apply Hall. by eapply list_elem_of_lookup_2.
  - (* RunWgDone *)
    step_inv Hstep. simplify_eq.
    apply andb_true_iff in Hc as [Hc Hwg].
    apply bool_decide_eq_true in Hc. subst g.
    destruct Hwf.
    pose proof (lookup_lt_Some _ _ _ Hg) as Hlt.
    split; simpl.
    + by rewrite length_insert.
    + done.
    + done.
    + intros i g. destruct (decide (i = j)) as [->|Hne].
      * rewrite list_lookup_insert_eq by done. intros [= <-].
        pose proof (wf_started0 _ _ Hg). intuition congruence.
      * rewrite list_lookup_insert_ne by done. apply wf_started0.
    + rewrite (countIf_insert _ _ _ _ _ Hg). simpl. lia.
    + done.
    + rewrite (countIf_insert _ _ _ _ _ Hg). simpl. lia.
    + intros i g. destruct (decide (i = j)) as [->|Hne].
      * rewrite !list_lookup_insert_eq by lia. intros [= <-]. simpl.
        by apply (wf_stored0 _ _ Hg).
      * rewrite !list_lookup_insert_ne by done. apply wf_stored0.
    + intros res Hres.
      destruct (wf_returned0 res Hres) as [?|(? & Hall & ?)]; [by left |].
      rewrite Forall_forall in Hall.
      assert (hasSignalled Stored = true); [|done].
      apply Hall. by eapply list_elem_of_lookup_2.
  - (* RunRelease *)
    step_inv Hstep. simplify_eq.
    apply andb_true_iff in Hc as [Hc Hsem].
    apply bool_decide_eq_true in Hc. subst g.
    destruct Hwf.
    pose proof (lookup_lt_Some _ _ _ Hg) as Hlt.
    split; simpl.
    + by rewrite length_insert.
    + done.
    + done.
    + intros i g. destruct (decide (i = j)) as [->|Hne].
      * rewrite list_lookup_insert_eq by done. intros [= <-].
        pose proof (wf_started0 _ _ Hg). intuition congruence.
      * rewrite list_lookup_insert_ne by done. apply wf_started0.
    + rewrite (countIf_insert _ _ _ _ _ Hg). simpl. lia.
    + lia.
    + rewrite (countIf_insert _ _ _ _ _ Hg). simpl. lia.
    + intros i g. destruct (decide (i = j)) as [->|Hne].
      * rewrite !list_lookup_insert_eq by lia. intros [= <-]. simpl.
        by apply (wf_stored0 _ _ Hg).
      * rewrite !list_lookup_insert_ne by done. apply wf_stored0.
    + intros res Hres.
      destruct (wf_returned0 res Hres) as [?|(? & Hall & ?)]; [by left |].
      right. split; [done |]. split; [|done].
      apply Forall_insert; done.
  - (* WaitReturns *)
    step_inv Hstep. simplify_eq.
    apply andb_true_iff in Hc as [Hc Hwg].
    apply andb_true_iff in Hc as [Hret Hnext].
    apply bool_decide_eq_true in Hret, Hnext.
    destruct Hwf. split; simpl; try done.
    intros res [= <-]. right. split; [done |]. split; [|done].
    apply countIf_all. unfold len in *. lia.
Qed.

Lemma run_wf (schedule : list event) (s s' : state) :
  wf s -> run net r options searchRegistries term schedule s = Some s' ->
  wf s'.
Proof.
  revert s. induction schedule as [|ev schedule IH]; intros s Hwf; simpl.
  - by intros [= <-].
  - destruct (step _ _ _ _ _ ev s) as [s1|] eqn:Hstep; simpl; [|done].
    apply IH. by eapply step_wf.
Qed.

Lemma run_app (schedule1 schedule2 : list event) (s : state) :
  run net r options searchRegistries term (schedule1 ++ schedule2) s
  = s1 ← run net r options searchRegistries term schedule1 s;
    run net r options searchRegistries term schedule2 s1.
Proof.
  revert s. induction schedule1 as [|ev schedule1 IH]; intros s; simpl.
  - done.
  - destruct (step _ _ _ _ _ ev s) as [s1|]; simpl; [apply IH | done].
Qed.

Lemma run_app_Some (schedule1 schedule2 : list event) (s s1 : state) :
  run net r options searchRegistries term schedule1 s = Some s1 ->
  run net r options searchRegistries term (schedule1 ++ schedule2) s
  = run net r options searchRegistries term schedule2 s1.
Proof. intros Hrun. by rewrite run_app, Hrun. Qed.

Lemma run_cons (ev : event) (schedule : list event) (s s1 : state) :
  step net r options searchRegistries term ev s = Some s1 ->
  run net r options searchRegistries term (ev :: schedule) s
  = run net r options searchRegistries term schedule s1.
Proof. intros Hstep. simpl. by rewrite Hstep. Qed.

(** From a state in which the call has not returned, some step other
    than a failed acquisition is enabled, and it either returns or
    brings the goroutines closer to their end. *)
Lemma progress_step (s : state) :
  wf s -> returned s = None ->
  exists ev s',
    ev <> AcquireFailed
    /\ step net r options searchRegistries term ev s = Some s'
    /\ (is_Some (returned s')
        \/ returned s' = None
           /\ (work (routines s') < work (routines s))%nat).
Proof.
  intros Hwf Hret. pose proof Hwf as [].
  destruct (decide (Exists (fun g => holdsPermit g = true) (routines s)))
    as [Hbusy|Hidle].
  - apply Exists_exists in Hbusy as (g & Hin & Hholds).
    apply list_elem_of_lookup in Hin as [j Hj].
    pose proof (lookup_lt_Some _ _ _ Hj) as Hlt.
    destruct g; try done.
    + (* the search of goroutine j returns *)
      destruct (lookup_lt_is_Some_2 searchRegistries j) as [registry Hreg];
        [lia |].
      destruct (searchImageInRegistry_is_Some (net j) r term registry
        options) as [[out e] Hout].
      exists (SearchReturns j). eexists. split; [done |]. split.
      * simpl. rewrite Hj. simpl. rewrite Hreg. simpl. rewrite Hout.
        simpl. reflexivity.
      * right. simpl. split; [done |].
        pose proof (work_insert _ _ _ Stored Hj). simpl in *. lia.
    + exists (RunWgDone j). eexists. split; [done |]. split.
      * simpl. rewrite Hj. simpl.
        pose proof (countIf_lt hasSignalled _ _ _ Hj eq_refl).
        unfold len in *.
        destruct (Z.geb_spec (wg s - 1) 0); [reflexivity | lia].
      * right. simpl. split; [done |].
        pose proof (work_insert _ _ _ WgDone Hj). simpl in *. lia.
    + exists (RunRelease j). eexists. split; [done |]. split.
      * simpl. rewrite Hj. simpl.
        pose proof (countIf_pos holdsPermit _ _ _ Hj eq_refl).
        destruct (Z.geb_spec (sem_cur s - 1) 0); [reflexivity | lia].
      * right. simpl. split; [done |].
        pose proof (work_insert _ _ _ Finished Hj). simpl in *. lia.
  - apply not_Exists_Forall in Hidle; [|intros g; apply _].
    assert (Hsem : sem_cur s = 0).
    { rewrite wf_sem0. apply countIf_none.
      eapply Forall_impl; [exact Hidle |]. simpl.
      intros g Hg. by destruct (holdsPermit g). }
    destruct (decide (next s < length searchRegistries)%nat) as [Hlt|Hge].
    + destruct (lookup_lt_is_Some_2 (routines s) (next s)) as [g Hg];
        [lia |].
      exists Acquired. eexists. split; [done |]. split.
      * simpl. rewrite Hret, Hsem.
        rewrite !bool_decide_eq_true_2 by done. simpl. reflexivity.
      * right. simpl. split; [done |].
        assert (g = NotStarted) as -> by (by apply (wf_started0 (next s))).
        pose proof (work_insert _ _ _ Searching Hg). simpl in *. lia.
    + assert (Hnext : next s = length searchRegistries) by lia.
      exists WaitReturns. eexists. split; [done |]. split.
      * simpl. rewrite Hret.
        rewrite !bool_decide_eq_true_2 by done. simpl.
        assert (Hwg : wg s = 0).
        { rewrite wf_wg0, countIf_all_iff; [unfold len; lia |].
          apply Forall_lookup. intros j g Hj.
          pose proof (lookup_lt_Some _ _ _ Hj) as Hlt.
          pose proof (wf_started0 _ _ Hj) as Hst.
          rewrite Forall_lookup in Hidle. specialize (Hidle _ _ Hj).
          simpl in Hidle.
          destruct g; try done.
          assert (next s <= j)%nat by (by apply Hst). lia. }
        rewrite Hwg. simpl. reflexivity.
      * left. simpl. by eexists.
Qed.

(** No run is stuck: every state reached can be continued, without a
    failed acquisition, to a state in which the call has returned. *)
Lemma progress (s : state) :
  wf s ->
  exists schedule s',
    (AcquireFailed ∉ schedule)
    /\ run net r options searchRegistries term schedule s = Some s'
    /\ is_Some (returned s').
Proof.
  remember (work (routines s)) as k eqn:Hk.
  revert s Hk. induction (lt_wf k) as [k _ IH]. intros s -> Hwf.
  destruct (returned s) as [res|] eqn:Hret.
  - exists [], s. split; [apply not_elem_of_nil |]. split; [done |].
    rewrite Hret. by eexists.
  - destruct (progress_step s Hwf Hret)
      as (ev & s1 & Hev & Hstep & [Hdone | [Hnone Hless]]).
    + exists [ev], s1. split.
      * rewrite list_elem_of_singleton. congruence.
      * simpl. rewrite Hstep. done.
    + destruct (IH _ Hless s1 eq_refl (step_wf _ _ _ Hwf Hstep))
        as (schedule & s' & Hnotin & Hrun & Hres).
      exists (ev :: schedule), s'. split.
      * rewrite elem_of_cons. intros [Heq | Hin]; [congruence | done].
      * simpl. rewrite Hstep. done.
Qed.

(** Without a failed acquisition the call returns only after the loop. *)
Lemma run_no_failure (schedule : list event) (s s' : state) :
  AcquireFailed ∉ schedule ->
  run net r options searchRegistries term schedule s = Some s' ->
  returned s = None \/ next s = length searchRegistries ->
  returned s' = None \/ next s' = length searchRegistries.
Proof.
  revert s. induction schedule as [|ev schedule IH]; intros s Hnotin; simpl.
  - by intros [= <-].
  - apply not_elem_of_cons in Hnotin as [Hev Hnotin].
    destruct (step _ _ _ _ _ ev s) as [s1|] eqn:Hstep; simpl; [|done].
    intros Hrun Hs. apply (IH s1 Hnotin Hrun).
    destruct ev as [e| | |j|j|j|]; try done.
    + simpl in Hstep. destruct (ctx_err s); by simplify_eq.
    + step_inv Hstep. simplify_eq. simpl. left.
      apply andb_true_iff in Hc as [Hc _].
      apply andb_true_iff in Hc as [Hret _].
      by apply bool_decide_eq_true in Hret.
    + step_inv Hstep.
      destruct (searchRegistries !! j); simpl in Hstep; [|done].
      destruct (searchImageInRegistry _ _ _ _ _) as [[??]|];
        simpl in Hstep; [|done].
      by simplify_eq.
    + step_inv Hstep. by simplify_eq.
    + step_inv Hstep. by simplify_eq.
    + step_inv Hstep. simplify_eq. simpl. right.
      apply andb_true_iff in Hc as [Hc _].
      apply andb_true_iff in Hc as [_ Hnext].
      by apply bool_decide_eq_true in Hnext.
Qed.

(** Once every goroutine has signalled, the slots hold the outcomes of
    all registries, in the order of the registry list. *)
Lemma slots_outcomes (s : state) :
  wf s -> Forall (fun g => hasSignalled g = true) (routines s) ->
  mapM outcome (seq 0 (length searchRegistries)) = Some (slots s).
Proof.
  intros [] Hall. apply mapM_Some_2, Forall2_same_length_lookup_2.
  - by rewrite length_seq.
  - intros i j d [-> Hi]%lookup_seq Hd. simpl in *.
    destruct (lookup_lt_is_Some_2 (routines s) i) as [g Hg]; [lia |].
    rewrite Forall_lookup in Hall. specialize (Hall _ _ Hg). simpl in Hall.
    rewrite (wf_stored0 _ _ Hg) in Hd. by destruct g.
Qed.

Lemma outcomes_is_Some :
  is_Some (mapM outcome (seq 0 (length searchRegistries))).
Proof.
  apply mapM_is_Some, Forall_forall. intros j [_ Hj]%elem_of_seq. simpl.
  unfold outcome.
  destruct (lookup_lt_is_Some_2 searchRegistries j) as [registry ->];
    [lia |].
  simpl.
  destruct (searchImageInRegistry_is_Some (net j) r term registry options)
    as [[out e] ->].
  by eexists.
Qed.

(** What a call that was not refused a permit returns. *)
Lemma dispatch_aggregates (schedule : list event)
    (res : list SearchResult.t * option error) :
  AcquireFailed ∉ schedule ->
  dispatch net r options searchRegistries term schedule = Some res ->
  exists data,
    mapM outcome (seq 0 (length searchRegistries)) = Some data
    /\ res = aggregate data.
Proof.
  intros Hnotin. unfold dispatch.
  destruct (run _ _ _ _ _ schedule _) as [s|] eqn:Hrun; simpl; [|done].
  intros Hres.
  pose proof (run_wf _ _ _ wf_init Hrun) as Hwf.
  destruct (run_no_failure _ _ _ Hnotin Hrun (or_introl eq_refl))
    as [Hnone | Hnext]; [congruence |].
  destruct (wf_returned _ _ _ _ _ _ Hwf _ Hres) as [(e & _ & _ & Hlt) | (_ & Hall & ->)];
    [lia |].
  exists (slots s). split; [by apply slots_outcomes | done].
Qed.

(** Some schedule without a failed acquisition makes the call return. *)
Lemma dispatch_returns :
  exists schedule,
    (AcquireFailed ∉ schedule)
    /\ is_Some (dispatch net r options searchRegistries term schedule).
Proof.
  destruct (progress _ wf_init) as (schedule & s & Hnotin & Hrun & Hres).
  exists schedule. split; [done |]. unfold dispatch. by rewrite Hrun.
Qed.

(** After the call has returned, no goroutine is started any more and the
    returned value stands. *)
Lemma run_after_return (schedule : list event) (s s' : state)
    (res : list SearchResult.t * option error) :
  returned s = Some res ->
  run net r options searchRegistries term schedule s = Some s' ->
  returned s' = Some res /\ next s' = next s.
Proof.
  revert s. induction schedule as [|ev schedule IH]; intros s Hres; simpl.
  - by intros [= <-].
  - destruct (step _ _ _ _ _ ev s) as [s1|] eqn:Hstep; simpl; [|done].
    intros Hrun.
    assert (returned s1 = Some res /\ next s1 = next s) as [Hres1 Hnext1].
    { destruct ev as [e| | |j|j|j|].
      - simpl in Hstep. destruct (ctx_err s); by simplify_eq.
      - simpl in Hstep. rewrite Hres in Hstep.
        by rewrite bool_decide_eq_false_2 in Hstep.
      - simpl in Hstep. rewrite Hres in Hstep.
        by rewrite bool_decide_eq_false_2 in Hstep.
      - step_inv Hstep.
        destruct (searchRegistries !! j); simpl in Hstep; [|done].
        destruct (searchImageInRegistry _ _ _ _ _) as [[??]|];
          simpl in Hstep; [|done].
        by simplify_eq.
      - step_inv Hstep. by simplify_eq.
      - step_inv Hstep. by simplify_eq.
      - simpl in Hstep. rewrite Hres in Hstep.
        by rewrite bool_decide_eq_false_2 in Hstep. }
    destruct (IH s1 Hres1 Hrun) as [? ?]. split; [done | congruence].
Qed.

End DispatcherFacts.

(** ** Facts about the term parser *)

Lemma splitTerm_slash (searchRegistries : list string)
    (before after : string) :
  strings.Contains before slash = false ->
  splitTerm searchRegistries (before +:+ String slash after)
  = Some (searchRegistries ++ [before], after).
Proof.
  intros Hb. unfold splitTerm, strings.SplitN2.
  by rewrite (Cut_first _ _ _ Hb).
Qed.

Lemma splitTerm_plain (searchRegistries : list string) (term : string) :
  strings.Contains term slash = false ->
  splitTerm searchRegistries term = Some (searchRegistries, term).
Proof.
  intros Hb. unfold splitTerm, strings.SplitN2.
  by rewrite (Cut_None _ _ Hb).
Qed.

Lemma splitTerm_is_Some (searchRegistries : list string) (term : string) :
  is_Some (splitTerm searchRegistries term).
Proof.
  unfold splitTerm, strings.SplitN2.
  destruct (strings.Cut term slash) as [[before after]|]; by eexists.
Qed.

(** ** The dispatcher *)

Lemma Search_resolved
    (UnqualifiedSearchRegistries : types.SystemContext -> result (list string))
    (net : nat -> RegistryClient) (r : Runtime) (term : string)
    (options : SearchOptions.t) (schedule : list event)
    (searchRegistries registries : list string) (term' : string) :
  UnqualifiedSearchRegistries (systemContext r) = Ok searchRegistries ->
  splitTerm searchRegistries term = Some (registries, term') ->
  Search UnqualifiedSearchRegistries net r term options schedule
  = dispatch net r options registries term' schedule.
Proof. intros Hcfg Hsplit. unfold Search. by rewrite Hcfg, Hsplit. Qed.

(** A failure to resolve the registry list is returned as it is. *)
Lemma Search_unresolved
    (UnqualifiedSearchRegistries : types.SystemContext -> result (list string))
    (net : nat -> RegistryClient) (r : Runtime) (term : string)
    (options : SearchOptions.t) (schedule : list event) (e : error) :
  UnqualifiedSearchRegistries (systemContext r) = Err e ->
  Search UnqualifiedSearchRegistries net r term options schedule
  = Some ([], Some e).
Proof. intros Hcfg. unfold Search. by rewrite Hcfg. Qed.

(** The two early returns of [Search], at sample inputs. *)
Example resolution_failure_is_returned :
  Search (sampleProvider (Err (External "cannot load registries.conf")))
    (sampleNet []) sampleRuntime "alpine" (sampleOptions noFilter 0 false) []
  = Some ([], Some (External "cannot load registries.conf")).
Proof. reflexivity. Qed.

Example acquisition_failure_is_returned :
  Search (sampleProvider (Ok eightRegistries))
    (fun _ => sampleClient (Ok [sampleHit "etcd" 3 false]) (Ok []))
    sampleRuntime "etcd" (sampleOptions noFilter 0 false)
    (sixRunning ++ [Cancel contextCanceled; AcquireFailed])
  = Some ([], Some contextCanceled).
Proof. vm_compute. reflexivity. Qed.

(** C1 (the claim fails): when the registry list cannot be resolved,
    [Search] returns a non-nil error although no registry's query failed,
    none having been made; and when the acquisition of a permit fails,
    [Search] returns the error of the context although every query
    succeeds. *)
Lemma error_without_failed_query :
  ~ errorOnlyForFailedQueries
      (sampleProvider (Err (External "cannot load registries.conf")))
      (sampleNet []) sampleRuntime "alpine" (sampleOptions noFilter 0 false)
      []
  /\ ~ errorOnlyForFailedQueries
        (sampleProvider (Ok eightRegistries))
        (fun _ => sampleClient (Ok [sampleHit "etcd" 3 false]) (Ok []))
        sampleRuntime "etcd" (sampleOptions noFilter 0 false)
        (sixRunning ++ [Cancel contextCanceled; AcquireFailed]).
Proof.
  split.
  - intros Hclaim.
    destruct (Hclaim [] (Some (External "cannot load registries.conf"))
      eq_refl) as [Hfailed _].
    destruct Hfailed as (_ & cfg & regs & term' & index & d & Hcfg & _);
      [done | discriminate Hcfg].
  - intros Hclaim.
    destruct (Hclaim [] (Some contextCanceled) eq_refl) as [Hfailed _].
    destruct Hfailed
      as (_ & cfg & regs & term' & index & d & Hcfg & Hsplit & Hout & Herr);
      [done |].
    injection Hcfg as <-. injection Hsplit as <- <-.
    unfold outcome in Hout.
    destruct (eightRegistries !! index) as [registry|]; [|done].
    simpl in Hout. injection Hout as <-. by apply Herr.
Qed.

(** C1 (amended): when the registry list resolves and no permit acquisition
    fails, [Search] returns, and it returns a non-nil error exactly when the
    result sequence is empty and at least one registry's query failed; the
    error is then the multi-error of the causes of every failed query, in
    registry order.  A non-empty result sequence comes with a nil error, and
    so does an empty one when no query failed. *)
Theorem error_iff_nothing_found
    (UnqualifiedSearchRegistries : types.SystemContext -> result (list string))
    (net : nat -> RegistryClient) (r : Runtime) (term : string)
    (options : SearchOptions.t)
    (searchRegistries registries : list string) (term' : string) :
  UnqualifiedSearchRegistries (systemContext r) = Ok searchRegistries ->
  splitTerm searchRegistries term = Some (registries, term') ->
  exists data,
    mapM (outcome net r options registries term')
      (seq 0 (length registries)) = Some data
    /\ (exists schedule,
          (AcquireFailed ∉ schedule)
          /\ is_Some (Search UnqualifiedSearchRegistries net r term options
                        schedule))
    /\ forall schedule results err,
         AcquireFailed ∉ schedule ->
         Search UnqualifiedSearchRegistries net r term options schedule
         = Some (results, err) ->
         results = successes data
         /\ (err <> None <-> results = [] /\ failures data <> [])
         /\ (err <> None ->
             err = Some (MultiError (failures data ≫= multierror.causes)))
         /\ (results <> [] -> err = None)
         /\ (failures data = [] -> err = None).
Proof.
  intros Hcfg Hsplit.
  destruct (outcomes_is_Some net r options registries term') as [data Hdata].
  exists data. split; [done |]. split.
  - destruct (dispatch_returns net r options registries term')
      as (schedule & Hnotin & Hret).
    exists schedule. split; [done |].
    by rewrite (Search_resolved _ _ _ _ _ _ _ _ _ Hcfg Hsplit).
  - intros schedule results err Hnotin.
    rewrite (Search_resolved _ _ _ _ _ _ _ _ _ Hcfg Hsplit).
    intros Hres.
    destruct (dispatch_aggregates _ _ _ _ _ _ _ Hnotin Hres)
      as (data' & Hdata' & Hagg).
    assert (data' = data) as -> by congruence.
    rewrite aggregate_spec in Hagg. injection Hagg as -> ->.
    split; [done |].
    destruct (successes data) as [|x results]; simpl.
    + unfold multiErrorOf. destruct (failures data) as [|e errs]; simpl.
      * repeat split; try done. by intros [_ ?].
      * repeat split; try done.
    + repeat split; try done. by intros [? _].
Qed.

Lemma error_iff_nothing_found_witness :
  exists data,
    mapM (outcome (sampleNet threeAnswers) sampleRuntime
            (sampleOptions noFilter 0 false) threeRegistries "etcd")
      (seq 0 3) = Some data
    /\ (exists schedule,
          (AcquireFailed ∉ schedule)
          /\ is_Some (Search (sampleProvider (Ok threeRegistries))
                        (sampleNet threeAnswers) sampleRuntime "etcd"
                        (sampleOptions noFilter 0 false) schedule))
    /\ forall schedule results err,
         AcquireFailed ∉ schedule ->
         Search (sampleProvider (Ok threeRegistries))
           (sampleNet threeAnswers) sampleRuntime "etcd"
           (sampleOptions noFilter 0 false) schedule
         = Some (results, err) ->
         results = successes data
         /\ (err <> None <-> results = [] /\ failures data <> [])
         /\ (err <> None ->
             err = Some (MultiError (failures data ≫= multierror.causes)))
         /\ (results <> [] -> err = None)
         /\ (failures data = [] -> err = None).
Proof.
  apply (error_iff_nothing_found (sampleProvider (Ok threeRegistries))
    (sampleNet threeAnswers) sampleRuntime "etcd"
    (sampleOptions noFilter 0 false) threeRegistries threeRegistries "etcd");
    reflexivity.
Defined.

(** When every query fails the error lists every failure. *)
Example all_queries_fail :
  Search (sampleProvider (Ok ["quay.io"; "docker.io"]))
    (sampleNet []) sampleRuntime "etcd" (sampleOptions noFilter 0 false)
    [Acquired; Acquired; SearchReturns 1; SearchReturns 0;
     RunWgDone 0; RunWgDone 1; WaitReturns]
  = Some ([], Some (MultiError [External "connection refused";
                                External "connection refused"])).
Proof. vm_compute. reflexivity. Qed.

(** C2: for a resolved registry list and any outcomes of the per-registry
    queries, the result sequence [Search] returns after dispatching every
    registry is the concatenation of the successful outcomes in the order
    of the registry list, whatever the order in which the goroutines
    finish: each outcome is read from the slot of its registry. *)
Theorem results_in_registry_order
    (UnqualifiedSearchRegistries : types.SystemContext -> result (list string))
    (net : nat -> RegistryClient) (r : Runtime) (term : string)
    (options : SearchOptions.t)
    (searchRegistries registries : list string) (term' : string) :
  UnqualifiedSearchRegistries (systemContext r) = Ok searchRegistries ->
  splitTerm searchRegistries term = Some (registries, term') ->
  exists data,
    mapM (outcome net r options registries term')
      (seq 0 (length registries)) = Some data
    /\ (exists schedule,
          (AcquireFailed ∉ schedule)
          /\ is_Some (Search UnqualifiedSearchRegistries net r term options
                        schedule))
    /\ (forall schedule s,
          run net r options registries term' schedule (init registries)
          = Some s ->
          forall index g,
            routines s !! index = Some g -> hasStored g = true ->
            slots s !! index = data !! index)
    /\ forall schedule results err,
         AcquireFailed ∉ schedule ->
         Search UnqualifiedSearchRegistries net r term options schedule
         = Some (results, err) ->
         results
         = concat (searchOutputData.data <$>
                     List.filter
                       (fun d => bool_decide (searchOutputData.err d = None))
                       data).
Proof.
  intros Hcfg Hsplit.
  destruct (outcomes_is_Some net r options registries term') as [data Hdata].
  exists data. split; [done |]. split; [| split].
  - destruct (dispatch_returns net r options registries term')
      as (schedule & Hnotin & Hret).
    exists schedule. split; [done |].
    by rewrite (Search_resolved _ _ _ _ _ _ _ _ _ Hcfg Hsplit).
  - intros schedule s Hrun index g Hg Hstored.
    pose proof (run_wf _ _ _ _ _ _ _ _ (wf_init _ _ _ _ _) Hrun) as Hwf.
    rewrite (wf_stored _ _ _ _ _ _ Hwf _ _ Hg), Hstored.
    apply mapM_Some_1 in Hdata.
    pose proof (lookup_lt_Some _ _ _ Hg) as Hlt.
    rewrite (wf_routines _ _ _ _ _ _ Hwf) in Hlt.
    destruct (lookup_lt_is_Some_2 data index) as [d Hd].
    { by rewrite <- (Forall2_length _ _ _ Hdata), length_seq. }
    rewrite Hd.
    eapply Forall2_lookup_lr in Hdata; [exact Hdata | | exact Hd].
    by apply lookup_seq.
  - intros schedule results err Hnotin.
    rewrite (Search_resolved _ _ _ _ _ _ _ _ _ Hcfg Hsplit).
    intros Hres.
    destruct (dispatch_aggregates _ _ _ _ _ _ _ Hnotin Hres)
      as (data' & Hdata' & Hagg).
    assert (data' = data) as -> by congruence.
    rewrite aggregate_spec in Hagg. by injection Hagg as -> _.
Qed.

Lemma results_in_registry_order_witness :
  exists data,
    mapM (outcome (sampleNet threeAnswers) sampleRuntime
            (sampleOptions noFilter 0 false) threeRegistries "etcd")
      (seq 0 3) = Some data
    /\ SearchResult.Name <$>
         concat (searchOutputData.data <$>
                   List.filter
                     (fun d => bool_decide (searchOutputData.err d = None))
                     data)
       = ["quay.io/coreos/etcd"; "registry.example.com/etcd";
          "registry.example.com/etcd-operator"]
    /\ exists results,
         Search (sampleProvider (Ok threeRegistries))
           (sampleNet threeAnswers) sampleRuntime "etcd"
           (sampleOptions noFilter 0 false) outOfOrder
         = Some (results, None)
         /\ results
            = concat (searchOutputData.data <$>
                        List.filter
                          (fun d =>
                             bool_decide (searchOutputData.err d = None))
                          data).
Proof.
  destruct (results_in_registry_order (sampleProvider (Ok threeRegistries))
    (sampleNet threeAnswers) sampleRuntime "etcd"
    (sampleOptions noFilter 0 false) threeRegistries threeRegistries "etcd"
    eq_refl eq_refl) as (data & Hdata & _ & _ & Horder).
  exists data. split; [exact Hdata |].
  destruct (Search (sampleProvider (Ok threeRegistries))
    (sampleNet threeAnswers) sampleRuntime "etcd"
    (sampleOptions noFilter 0 false) outOfOrder) as [[results err]|] eqn:Hrun;
    [|vm_compute in Hrun; discriminate Hrun].
  assert (Hnotin : AcquireFailed ∉ outOfOrder) by (unfold outOfOrder; not_in_schedule).
  pose proof (Horder outOfOrder results err Hnotin Hrun) as Hresults.
  split.
  - vm_compute in Hdata. injection Hdata as <-. vm_compute. reflexivity.
  - exists results. split; [|exact Hresults].
    vm_compute in Hrun. injection Hrun as <- <-. vm_compute. reflexivity.
Defined.

(** ** The term parser *)

(** C4: a term that holds a ['/'] is [before/after] with no ['/'] in
    [before]; [before] is added as one more registry at the end of the
    configured list and [after] is the term of every query, those of the
    configured registries included.  A term without ['/'] changes neither
    the list nor the term. *)
Theorem term_names_a_registry
    (UnqualifiedSearchRegistries : types.SystemContext -> result (list string))
    (net : nat -> RegistryClient) (r : Runtime) (options : SearchOptions.t)
    (searchRegistries : list string) (term : string) :
  UnqualifiedSearchRegistries (systemContext r) = Ok searchRegistries ->
  (strings.Contains term slash = true ->
   exists before after,
     term = before +:+ "/" +:+ after
     /\ strings.Contains before slash = false
     /\ splitTerm searchRegistries term
        = Some (searchRegistries ++ [before], after)
     /\ (forall schedule,
           Search UnqualifiedSearchRegistries net r term options schedule
           = dispatch net r options (searchRegistries ++ [before]) after
               schedule)
     /\ forall schedule s index g,
          run net r options (searchRegistries ++ [before]) after schedule
            (init (searchRegistries ++ [before])) = Some s ->
          routines s !! index = Some g -> hasStored g = true ->
          exists registry searchOutput err,
            (searchRegistries ++ [before]) !! index = Some registry
            /\ searchImageInRegistry (net index) r after registry options
               = Some (searchOutput, err)
            /\ slots s !! index
               = Some {| searchOutputData.data := searchOutput;
                         searchOutputData.err := err |})
  /\ (strings.Contains term slash = false ->
      splitTerm searchRegistries term = Some (searchRegistries, term)
      /\ forall schedule,
           Search UnqualifiedSearchRegistries net r term options schedule
           = dispatch net r options searchRegistries term schedule).
Proof.
  intros Hcfg. split.
  - intros Hslash.
    destruct (Cut_is_Some _ _ Hslash) as [[before after] Hcut].
    destruct (Cut_Some _ _ _ _ Hcut) as [Hterm Hbefore].
    exists before, after.
    assert (Hsplit : splitTerm searchRegistries term
                     = Some (searchRegistries ++ [before], after)).
    { rewrite Hterm. by apply splitTerm_slash. }
    split; [done |]. split; [done |]. split; [done |]. split.
    + intros schedule. by apply Search_resolved with searchRegistries.
    + intros schedule s index g Hrun Hg Hstored.
      pose proof (run_wf _ _ _ _ _ _ _ _ (wf_init _ _ _ _ _) Hrun) as Hwf.
      pose proof (wf_stored _ _ _ _ _ _ Hwf _ _ Hg) as Hslot.
      rewrite Hstored in Hslot. unfold outcome in Hslot.
      pose proof (lookup_lt_Some _ _ _ Hg) as Hlt.
      rewrite (wf_routines _ _ _ _ _ _ Hwf) in Hlt.
      destruct (lookup_lt_is_Some_2 _ index Hlt) as [registry Hreg].
      rewrite Hreg in Hslot. simpl in Hslot.
      destruct (searchImageInRegistry_is_Some (net index) r after registry
        options) as [[out e] Hout].
      rewrite Hout in Hslot. simpl in Hslot.
      by exists registry, out, e.
  - intros Hplain.
    pose proof (splitTerm_plain searchRegistries term Hplain) as Hsplit.
    split; [done |].
    intros schedule. by apply Search_resolved with searchRegistries.
Qed.

Lemma term_names_a_registry_witness :
  (exists before after,
     "quay.io/coreos/etcd" = before +:+ "/" +:+ after
     /\ strings.Contains before slash = false
     /\ splitTerm ["docker.io"] "quay.io/coreos/etcd"
        = Some (["docker.io"] ++ [before], after))
  /\ splitTerm ["docker.io"] "etcd" = Some (["docker.io"], "etcd").
Proof.
  split.
  - destruct (proj1 (term_names_a_registry
      (sampleProvider (Ok ["docker.io"])) (sampleNet []) sampleRuntime
      (sampleOptions noFilter 0 false) ["docker.io"] "quay.io/coreos/etcd"
      eq_refl) eq_refl) as (before & after & Hterm & Hbefore & Hsplit & _).
    by exists before, after.
  - apply (proj2 (term_names_a_registry
      (sampleProvider (Ok ["docker.io"])) (sampleNet []) sampleRuntime
      (sampleOptions noFilter 0 false) ["docker.io"] "etcd" eq_refl)).
    reflexivity.
Defined.

Example splitTerm_examples :
  splitTerm ["docker.io"] "quay.io/coreos/etcd"
  = Some (["docker.io"; "quay.io"], "coreos/etcd")
  /\ splitTerm ["docker.io"] "library/ubuntu"
     = Some (["docker.io"; "library"], "ubuntu")
  /\ splitTerm ["docker.io"] "/etcd" = Some (["docker.io"; ""], "etcd").
Proof. repeat split; reflexivity. Qed.

(** ** Concurrency and cancellation *)

(** C10: in every state a call of [Search] can reach, whatever the length
    of the registry list, at most 6 goroutines hold a permit, that is, are
    between their [sem.Acquire] and their [sem.Release]; their number is the
    count of the semaphore, and with 6 of them no further goroutine is
    started. *)
Theorem at_most_six_in_flight
    (net : nat -> RegistryClient) (r : Runtime) (options : SearchOptions.t)
    (searchRegistries : list string) (term : string)
    (schedule : list event) (s : state) :
  run net r options searchRegistries term schedule (init searchRegistries)
  = Some s ->
  0 <= inFlight s <= 6
  /\ inFlight s = sem_cur s
  /\ (inFlight s = 6 ->
      step net r options searchRegistries term Acquired s = None).
Proof.
  intros Hrun.
  pose proof (run_wf _ _ _ _ _ _ _ _ (wf_init _ _ _ _ _) Hrun) as Hwf.
  pose proof (wf_sem _ _ _ _ _ _ Hwf) as Hsem.
  pose proof (wf_sem_le _ _ _ _ _ _ Hwf) as Hle.
  unfold inFlight. rewrite <- Hsem.
  pose proof (countIf_bounds holdsPermit (routines s)).
  unfold searchMaxParallel in *.
  split; [lia |]. split; [done |].
  intros Hfull. simpl. rewrite Hfull. simpl. by rewrite andb_false_r.
Qed.

Lemma at_most_six_in_flight_witness :
  exists s,
    run (sampleNet []) sampleRuntime (sampleOptions noFilter 0 false)
      eightRegistries "etcd" sixRunning (init eightRegistries) = Some s
    /\ inFlight s = 6
    /\ step (sampleNet []) sampleRuntime (sampleOptions noFilter 0 false)
         eightRegistries "etcd" Acquired s = None.
Proof.
  destruct (run (sampleNet []) sampleRuntime (sampleOptions noFilter 0 false)
    eightRegistries "etcd" sixRunning (init eightRegistries)) as [s|] eqn:Hrun;
    [|vm_compute in Hrun; discriminate Hrun].
  destruct (at_most_six_in_flight _ _ _ _ _ _ _ Hrun) as (_ & _ & Hfull).
  exists s. split; [reflexivity |].
  assert (Hsix : inFlight s = 6).
  { vm_compute in Hrun. injection Hrun as <-. vm_compute. reflexivity. }
  split; [exact Hsix | exact (Hfull Hsix)].
Defined.

(** C8 (the claim fails): six goroutines hold every permit and the first
    has stored a hit when the context is cancelled and the acquisition of
    the seventh permit fails; [Search] returns the cancellation error and
    not the hit. *)
Lemma cancellation_discards_results :
  ~ resultsWinOverCancellation
      (sampleNet [Ok [sampleHit "etcd" 3 false]]) sampleRuntime
      (sampleOptions noFilter 0 false) eightRegistries "etcd"
      sixRunning contextCanceled.
Proof.
  intros Hclaim.
  destruct (run (sampleNet [Ok [sampleHit "etcd" 3 false]]) sampleRuntime
    (sampleOptions noFilter 0 false) eightRegistries "etcd" sixRunning
    (init eightRegistries)) as [s|] eqn:Hrun;
    [|vm_compute in Hrun; discriminate Hrun].
  destruct (Hclaim s Hrun) as (results & Hne & Hret).
  - vm_compute in Hrun. injection Hrun as <-.
    eexists 0%nat, _. split; [reflexivity |]. split; [reflexivity | done].
  - vm_compute in Hret. congruence.
Qed.

(** C8 (amended): when the context is done while the loop still has a
    registry to dispatch, the acquisition may fail; [Search] then returns no
    result and the error of the context, whatever the slots hold; no
    goroutine is started afterwards, the registries not yet dispatched are
    never queried, and the returned value stands.  Results
    win over errors only for a call that dispatched every registry: such a
    call, even with its context cancelled, returns its non-empty results
    with a nil error. *)
Theorem cancellation_while_acquiring
    (UnqualifiedSearchRegistries : types.SystemContext -> result (list string))
    (net : nat -> RegistryClient) (r : Runtime) (term : string)
    (options : SearchOptions.t)
    (searchRegistries registries : list string) (term' : string)
    (before : list event) (s : state) (e : error) :
  UnqualifiedSearchRegistries (systemContext r) = Ok searchRegistries ->
  splitTerm searchRegistries term = Some (registries, term') ->
  run net r options registries term' before (init registries) = Some s ->
  returned s = None ->
  (next s < length registries)%nat ->
  ctx_err s = Some e ->
  Search UnqualifiedSearchRegistries net r term options
    (before ++ [AcquireFailed]) = Some ([], Some e)
  /\ (forall later s',
        run net r options registries term' (before ++ AcquireFailed :: later)
          (init registries) = Some s' ->
        next s' = next s /\ returned s' = Some ([], Some e)
        /\ (forall index,
              (next s <= index < length registries)%nat ->
              routines s' !! index = Some NotStarted)
        /\ Search UnqualifiedSearchRegistries net r term options
             (before ++ AcquireFailed :: later) = Some ([], Some e))
  /\ (forall schedule results err,
        AcquireFailed ∉ schedule ->
        Search UnqualifiedSearchRegistries net r term options schedule
        = Some (results, err) ->
        results <> [] -> err = None).
Proof.
  intros Hcfg Hsplit Hrun Hret Hnext Hctx.
  set (s1 := {| next := next s; routines := routines s; sem_cur := sem_cur s;
                wg := wg s; slots := slots s; ctx_err := ctx_err s;
                returned := Some ([], Some e) |}).
  assert (Hfail : step net r options registries term' AcquireFailed s
                  = Some s1).
  { simpl. rewrite Hret. rewrite !bool_decide_eq_true_2 by done. simpl.
    destruct (ctx_err s) as [e'|] eqn:Hctx'; [|done].
    simpl. by simplify_eq. }
  split; [| split].
  - rewrite (Search_resolved _ _ _ _ _ _ _ _ _ Hcfg Hsplit).
    unfold dispatch.
    by rewrite (run_app_Some _ _ _ _ _ _ _ _ _ Hrun),
      (run_cons _ _ _ _ _ _ _ _ _ Hfail).
  - intros later s' Hlater.
    assert (Hlater' : run net r options registries term' later s1 = Some s').
    { by rewrite <- Hlater, (run_app_Some _ _ _ _ _ _ _ _ _ Hrun),
        (run_cons _ _ _ _ _ _ _ _ _ Hfail). }
    destruct (run_after_return _ _ _ _ _ _ s1 s' _ eq_refl Hlater')
      as [Hret' Hnext'].
    split; [done |]. split; [done |]. split.
    + intros index [Hge Hlt].
      pose proof (run_wf _ _ _ _ _ _ _ _ (wf_init _ _ _ _ _) Hlater) as Hwf.
      destruct (lookup_lt_is_Some_2 (routines s') index) as [g Hg].
      { by rewrite (wf_routines _ _ _ _ _ _ Hwf). }
      rewrite Hg. f_equal.
      apply (wf_started _ _ _ _ _ _ Hwf _ _ Hg). simpl in Hnext'. lia.
    + rewrite (Search_resolved _ _ _ _ _ _ _ _ _ Hcfg Hsplit).
      unfold dispatch. by rewrite Hlater.
  - intros schedule results err Hnotin.
    rewrite (Search_resolved _ _ _ _ _ _ _ _ _ Hcfg Hsplit).
    intros Hres Hne.
    destruct (dispatch_aggregates _ _ _ _ _ _ _ Hnotin Hres)
      as (data & _ & Hagg).
    rewrite aggregate_spec in Hagg. injection Hagg as -> ->.
    by destruct (successes data).
Qed.

Lemma cancellation_while_acquiring_witness :
  Search (sampleProvider (Ok eightRegistries))
    (sampleNet [Ok [sampleHit "etcd" 3 false]]) sampleRuntime "etcd"
    (sampleOptions noFilter 0 false)
    ((sixRunning ++ [Cancel contextCanceled]) ++ [AcquireFailed])
  = Some ([], Some contextCanceled).
Proof.
  destruct (run (sampleNet [Ok [sampleHit "etcd" 3 false]]) sampleRuntime
    (sampleOptions noFilter 0 false) eightRegistries "etcd"
    (sixRunning ++ [Cancel contextCanceled]) (init eightRegistries))
    as [s|] eqn:Hrun; [|vm_compute in Hrun; discriminate Hrun].
  refine (proj1 (cancellation_while_acquiring
    (sampleProvider (Ok eightRegistries))
    (sampleNet [Ok [sampleHit "etcd" 3 false]]) sampleRuntime "etcd"
    (sampleOptions noFilter 0 false) eightRegistries eightRegistries "etcd"
    (sixRunning ++ [Cancel contextCanceled]) s contextCanceled
    eq_refl eq_refl Hrun _ _ _));
    vm_compute in Hrun; injection Hrun as <-; vm_compute; (reflexivity || lia).
Defined.

(** * Further properties of the code *)

(** ** More facts about the [strings] functions *)

Lemma Contains_append (a b : string) (sep : ascii) :
  strings.Contains (a +:+ b) sep
  = strings.Contains a sep || strings.Contains b sep.
Proof.
  induction a as [|c a IH]; string_simpl; [done |].
  by rewrite IH, orb_assoc.
Qed.

Lemma ReplaceAll_removes (s : string) (old new : ascii) :
  old <> new -> strings.Contains (strings.ReplaceAll s old new) old = false.
Proof.
  intros Hne. induction s as [|c s IH]; simpl; [done |].
  rewrite IH, orb_false_r.
  destruct (Ascii.eqb_spec c old) as [->|Hc].
  - apply Ascii.eqb_neq. congruence.
  - by apply Ascii.eqb_neq.
Qed.

Lemma substring_keeps_out (s : string) (n : nat) (sep : ascii) :
  strings.Contains s sep = false ->
  strings.Contains (String.substring 0 n s) sep = false.
Proof.
  revert n. induction s as [|c s IH]; intros [|n]; simpl; try done.
  intros [Hc Hs]%orb_false_iff. by rewrite Hc, IH.
Qed.

Lemma Split_not_nil (s : string) (sep : ascii) : strings.Split s sep <> [].
Proof.
  induction s as [|c s IH]; simpl; [done |].
  destruct (Ascii.eqb c sep); [done |].
  by destruct (strings.Split s sep).
Qed.

Lemma Split_pieces (s : string) (sep : ascii) :
  Forall (fun piece => strings.Contains piece sep = false)
    (strings.Split s sep).
Proof.
  induction s as [|c s IH]; simpl.
  - by constructor.
  - destruct (Ascii.eqb c sep) eqn:Hc; [by constructor |].
    destruct (strings.Split s sep) as [|piece pieces].
    + constructor; [simpl; by rewrite Hc | done].
    + inversion IH as [|? ? Hp Hps]; subst.
      constructor; [simpl; by rewrite Hc, Hp | done].
Qed.

Lemma Split_whole (s : string) (sep : ascii) :
  strings.Contains s sep = false -> strings.Split s sep = [s].
Proof.
  induction s as [|c s IH]; simpl; [done |].
  intros [Hc Hs]%orb_false_iff. by rewrite Hc, (IH Hs).
Qed.

Lemma Split_append (a b : string) (sep : ascii) :
  strings.Contains a sep = false ->
  strings.Split (a +:+ String sep b) sep = a :: strings.Split b sep.
Proof.
  induction a as [|c a IH]; string_simpl.
  - by rewrite Ascii.eqb_refl.
  - intros [Hc Ha]%orb_false_iff. by rewrite Hc, (IH Ha).
Qed.

Lemma Join_cons (piece : string) (pieces : list string) (sep : string) :
  pieces <> [] ->
  strings.Join (piece :: pieces) sep
  = piece +:+ sep +:+ strings.Join pieces sep.
Proof. by destruct pieces. Qed.

Lemma Join_Split (s : string) (sep : ascii) :
  strings.Join (strings.Split s sep) (String sep "") = s.
Proof.
  induction s as [|c s IH]; simpl; [done |].
  destruct (Ascii.eqb_spec c sep) as [->|Hc].
  - rewrite Join_cons by apply Split_not_nil. by rewrite IH.
  - pose proof (Split_not_nil s sep) as Hne.
    destruct (strings.Split s sep) as [|piece pieces]; [done |].
    destruct pieces as [|piece' pieces].
    + simpl in *. by rewrite IH.
    + rewrite Join_cons by done. rewrite Join_cons in IH by done.
      by rewrite string_app_cons, IH.
Qed.

Lemma Split_Join (pieces : list string) (sep : ascii) :
  pieces <> [] ->
  Forall (fun piece => strings.Contains piece sep = false) pieces ->
  strings.Split (strings.Join pieces (String sep "")) sep = pieces.
Proof.
  induction pieces as [|piece pieces IH]; [done |].
  intros _ Hall. inversion Hall as [|? ? Hp Hps]; subst.
  destruct pieces as [|piece' pieces].
  - simpl. by apply Split_whole.
  - rewrite Join_cons by done.
    change (String sep "" +:+ ?x) with (String sep x).
    rewrite Split_append by done. by rewrite IH.
Qed.

Lemma Join_app (front back : list string) (sep : string) :
  front <> [] -> back <> [] ->
  strings.Join (front ++ back) sep
  = strings.Join front sep +:+ sep +:+ strings.Join back sep.
Proof.
  intros Hf Hb. induction front as [|piece front IH]; [done |].
  destruct front as [|piece' front].
  - simpl. by destruct back.
  - rewrite <- app_comm_cons.
    rewrite Join_cons by (by destruct front). rewrite IH by done.
    rewrite (Join_cons piece (piece' :: front)) by done.
    by rewrite !string_app_assoc.
Qed.

(** ** The index of a result *)

(** X1: the index of a registry has at most two dot-separated labels: a
    host of one or two labels is its own index, a longer host is cut down
    to its last two labels.  The index is a suffix of the host, cut at a
    dot, and shortening an index again changes nothing. *)
Theorem shortenIndex_last_two_labels (registry : string) :
  let arr := strings.Split registry dot in
  (length (strings.Split (shortenIndex registry) dot) <= 2)%nat
  /\ ((length arr <= 2)%nat -> shortenIndex registry = registry)
  /\ ((2 < length arr)%nat ->
      strings.Split (shortenIndex registry) dot
      = drop (length arr - 2)%nat arr)
  /\ shortenIndex (shortenIndex registry) = shortenIndex registry
  /\ exists front,
       registry = front +:+ shortenIndex registry
       /\ (front = "" \/ exists host, front = host +:+ ".").
Proof.
  intros arr.
  assert (Hshort : forall host,
    (length (strings.Split host dot) <= 2)%nat -> shortenIndex host = host).
  { intros host Hlen. unfold shortenIndex, len.
    by destruct (Z.gtb_spec (Z.of_nat (length (strings.Split host dot))) 2);
      [lia |]. }
  destruct (decide (length arr <= 2)%nat) as [Hle | Hgt].
  - rewrite (Hshort registry Hle).
    split; [done |]. split; [done |]. split; [lia |].
    split; [by apply Hshort |].
    exists "". split; [done | by left].
  - set (last := drop (length arr - 2)%nat arr).
    assert (Hlast : length last = 2%nat)
      by (unfold last; rewrite length_drop; lia).
    assert (Hpieces : Forall (fun p => strings.Contains p dot = false) last)
      by (apply Forall_drop, Split_pieces).
    assert (Hne : last <> []) by (intros Hnil; by rewrite Hnil in Hlast).
    assert (Hidx : shortenIndex registry = strings.Join last ".").
    { unfold shortenIndex, len. fold arr.
      by destruct (Z.gtb_spec (Z.of_nat (length arr)) 2); [|lia]. }
    assert (Hsplit : strings.Split (shortenIndex registry) dot = last).
    { rewrite Hidx. by apply Split_Join. }
    rewrite Hsplit, Hlast.
    split; [done |]. split; [lia |]. split; [done |]. split.
    + apply Hshort. by rewrite Hsplit, Hlast.
    + exists (strings.Join (take (length arr - 2)%nat arr) "." +:+ ".").
      split; [|right; by eexists].
      rewrite Hidx, string_app_assoc.
      rewrite <- Join_app.
      * unfold last. rewrite take_drop. unfold arr.
        symmetry. apply Join_Split.
      * intros Hnil. apply (f_equal length) in Hnil.
        rewrite length_take in Hnil. simpl in Hnil. lia.
      * done.
Qed.

(** ** What a per-registry search returns *)

Section PerRegistryMore.

Context (client : RegistryClient).

Lemma searchImageInRegistry_bounded
    (r : Runtime) (term registry : string) (options : SearchOptions.t)
    (results : list SearchResult.t) (err : option error) :
  searchImageInRegistry client r term registry options
  = Some (results, err) ->
  len results <= requestedLimit options.
Proof.
  intros Hrun.
  destruct (SearchOptions.ListTags options) eqn:Hmode.
  - rewrite searchImageInRegistry_tags_eq in Hrun by done.
    unfold searchRepositoryTags in Hrun.
    assert (Hpos : 1 <= requestedLimit options).
    { unfold requestedLimit, searchMaxQueries.
      destruct (Z.gtb_spec (SearchOptions.Limit options) 0); lia. }
    destruct (tagsReference _ _ _) as [imageRef|e];
      [|injection Hrun as <- _; unfold len; simpl; lia].
    destruct (GetRepositoryTags _ _ _) as [tags|e];
      [|injection Hrun as <- _; unfold len; simpl; lia].
    simpl in Hrun.
    rewrite tagsLoop_spec in Hrun
      by (pose proof (tagsLimit_le options tags); lia).
    rewrite drop_0 in Hrun. injection Hrun as <- _. unfold len.
    rewrite length_fmap, length_take.
    unfold tagsLimit, requestedLimit, searchMaxQueries, len in *.
    repeat case_bool_decide; repeat case_match; lia.
  - destruct (SearchRegistry client (clientContext r options) registry term
      (requestedLimit options)) as [hits|e] eqn:Hq.
    + rewrite (searchImageInRegistry_search _ _ _ _ _ _ Hmode Hq) in Hrun.
      injection Hrun as <- _. unfold len.
      rewrite length_fmap.
      pose proof (List.filter_length_le
        (matchesFilters (SearchOptions.Filter options))
        (take (Z.to_nat (hitsLimit options hits)) hits)) as Hf.
      rewrite length_take in Hf.
      unfold hitsLimit, requestedLimit, searchMaxQueries, len in *.
      repeat case_bool_decide; repeat case_match; lia.
    + rewrite (searchImageInRegistry_failed _ _ _ _ _ _ Hmode Hq) in Hrun.
      injection Hrun as <- _. unfold len. simpl.
      unfold requestedLimit, searchMaxQueries.
      destruct (Z.gtb_spec (SearchOptions.Limit options) 0); lia.
Qed.

(** X2: a search of one registry never returns more results than the limit
    it requests from the client, the explicit limit when that is positive
    and 25 otherwise, in either mode. *)
Theorem per_registry_result_bound
    (r : Runtime) (term registry : string) (options : SearchOptions.t)
    (results : list SearchResult.t) (err : option error) :
  searchImageInRegistry client r term registry options
  = Some (results, err) ->
  len results <= requestedLimit options
  /\ 1 <= requestedLimit options.
Proof.
  intros Hrun. split; [by eapply searchImageInRegistry_bounded |].
  unfold requestedLimit, searchMaxQueries.
  destruct (Z.gtb_spec (SearchOptions.Limit options) 0); lia.
Qed.

(** X3: a search of one registry never returns results together with an
    error: with an error the result sequence is empty.  In repository mode
    the error is the client's own error, not wrapped. *)
Theorem per_registry_error_has_no_results
    (r : Runtime) (term registry : string) (options : SearchOptions.t)
    (results : list SearchResult.t) (e : error) :
  searchImageInRegistry client r term registry options
  = Some (results, Some e) ->
  results = []
  /\ (SearchOptions.ListTags options = false ->
      SearchRegistry client (clientContext r options) registry term
        (requestedLimit options) = Err e).
Proof.
  intros Hrun.
  destruct (SearchOptions.ListTags options) eqn:Hmode.
  - split; [|done].
    rewrite searchImageInRegistry_tags in Hrun by done.
    destruct (searchRepositoryTags _ _ _ _ _) as [[rs [e'|]]|];
      simpl in Hrun; by simplify_eq.
  - destruct (SearchRegistry client (clientContext r options) registry term
      (requestedLimit options)) as [hits|e'] eqn:Hq.
    + by rewrite (searchImageInRegistry_search _ _ _ _ _ _ Hmode Hq) in Hrun.
    + rewrite (searchImageInRegistry_failed _ _ _ _ _ _ Hmode Hq) in Hrun.
      by simplify_eq.
Qed.

(** X4: with a negative limit a search of one registry returns no result,
    in either mode and whatever the registry answers. *)
Theorem negative_limit_returns_nothing
    (r : Runtime) (term registry : string) (options : SearchOptions.t)
    (results : list SearchResult.t) (err : option error) :
  SearchOptions.Limit options < 0 ->
  searchImageInRegistry client r term registry options
  = Some (results, err) ->
  results = [].
Proof.
  intros Hneg Hrun.
  destruct (SearchOptions.ListTags options) eqn:Hmode.
  - rewrite searchImageInRegistry_tags_eq in Hrun by done.
    unfold searchRepositoryTags in Hrun.
    destruct (tagsReference _ _ _) as [imageRef|e]; [|by simplify_eq].
    destruct (GetRepositoryTags _ _ _) as [tags|e]; [|by simplify_eq].
    simpl in Hrun. rewrite (tagsLimit_negative _ _ Hneg) in Hrun.
    replace (Z.to_nat (SearchOptions.Limit options)) with 0%nat in Hrun
      by lia.
    simpl in Hrun. by simplify_eq.
  - destruct (SearchRegistry client (clientContext r options) registry term
      (requestedLimit options)) as [hits|e] eqn:Hq.
    + rewrite (searchImageInRegistry_search _ _ _ _ _ _ Hmode Hq) in Hrun.
      rewrite (hitsLimit_negative _ _ Hneg) in Hrun.
      replace (Z.to_nat (SearchOptions.Limit options)) with 0%nat in Hrun
        by lia.
      simpl in Hrun. by simplify_eq.
    + rewrite (searchImageInRegistry_failed _ _ _ _ _ _ Hmode Hq) in Hrun.
      by simplify_eq.
Qed.

(** X5: for a limit that is not negative both modes retain the first
    [min(limit, count)] raw items, where the limit is the explicit one when
    positive and 25 otherwise; the tag listing then returns exactly that
    many results. *)
Theorem limit_policy_nonnegative
    (options : SearchOptions.t)
    (hits : list dockerTransport.SearchResult) (tags : list string)
    (sys : types.SystemContext) (registry term : string)
    (imageRef : types.ImageReference) :
  0 <= SearchOptions.Limit options ->
  hitsLimit options hits = Z.min (requestedLimit options) (len hits)
  /\ tagsLimit options tags = Z.min (requestedLimit options) (len tags)
  /\ (tagsReference client registry term = Ok imageRef ->
      GetRepositoryTags client sys imageRef = Ok tags ->
      exists results,
        searchRepositoryTags client sys registry term options
        = Some (results, None)
        /\ len results = Z.min (requestedLimit options) (len tags)
        /\ SearchResult.Tag <$> results
           = take (Z.to_nat (Z.min (requestedLimit options) (len tags)))
               tags).
Proof.
  intros Hlimit.
  assert (Ht : tagsLimit options tags
               = Z.min (requestedLimit options) (len tags)).
  { unfold tagsLimit, requestedLimit, searchMaxQueries, len.
    repeat case_bool_decide; repeat case_match; lia. }
  split; [|split; [done |]].
  - unfold hitsLimit, requestedLimit, searchMaxQueries, len.
    repeat case_bool_decide; repeat case_match; lia.
  - intros Href Htags. unfold searchRepositoryTags.
    rewrite Href, Htags. simpl.
    rewrite tagsLoop_spec by (pose proof (tagsLimit_le options tags); lia).
    rewrite drop_0, Ht. simpl. eexists. split; [done |]. split.
    + assert (1 <= requestedLimit options).
      { unfold requestedLimit, searchMaxQueries.
        destruct (Z.gtb_spec (SearchOptions.Limit options) 0); lia. }
      unfold len in *. rewrite length_fmap, length_take. lia.
    + rewrite <- list_fmap_compose. simpl. apply list_fmap_id.
Qed.

End PerRegistryMore.

Lemma filter_sublist {A : Type} (p q : A -> bool) (l : list A) :
  (forall x, p x = true -> q x = true) ->
  sublist (List.filter p l) (List.filter q l).
Proof.
  intros Hpq. induction l as [|x l IH]; simpl; [constructor |].
  destruct (p x) eqn:Hp.
  - rewrite (Hpq x Hp). by constructor.
  - destruct (q x); [by constructor | done].
Qed.

Lemma specDescription_clean (options : SearchOptions.t) (raw : string) :
  strings.Contains (specDescription options raw) newline = false
  /\ (SearchOptions.NoTrunc options = false ->
      (String.length (specDescription options raw) <= 47)%nat).
Proof.
  pose proof (ReplaceAll_removes raw newline space ltac:(done)) as Hclean.
  unfold specDescription.
  set (d := strings.ReplaceAll raw newline space) in *.
  destruct (bool_decide (44 < String.length d)%nat) eqn:Hlen; simpl.
  - apply bool_decide_eq_true in Hlen.
    destruct (SearchOptions.NoTrunc options); simpl.
    + split; [done | done].
    + split.
      * rewrite Contains_append, substring_keeps_out by done. done.
      * intros _. rewrite string_length_app, substring_length by lia.
        simpl. lia.
  - apply bool_decide_eq_false in Hlen. split; [done |]. lia.
Qed.

Section PerRegistryResults.

Context (client : RegistryClient).

Lemma search_mode_results
    (r : Runtime) (term registry : string) (options : SearchOptions.t)
    (results : list SearchResult.t) (err : option error) (x : SearchResult.t) :
  SearchOptions.ListTags options = false ->
  searchImageInRegistry client r term registry options
  = Some (results, err) ->
  x ∈ results ->
  exists hit,
    x = specFormat options registry (shortenIndex registry) hit
    /\ matchesFilters (SearchOptions.Filter options) hit = true.
Proof.
  intros Hmode Hrun Hx.
  destruct (SearchRegistry client (clientContext r options) registry term
    (requestedLimit options)) as [hits|e] eqn:Hq.
  - rewrite (searchImageInRegistry_search _ _ _ _ _ _ Hmode Hq) in Hrun.
    injection Hrun as <- _.
    apply list_elem_of_fmap in Hx as (hit & -> & Hhit).
    exists hit. split; [done |].
    apply list_elem_of_In, List.filter_In in Hhit. tauto.
  - rewrite (searchImageInRegistry_failed _ _ _ _ _ _ Hmode Hq) in Hrun.
    injection Hrun as <- _. by apply elem_of_nil in Hx.
Qed.

(** X6: every result of a repository search satisfies the filter: it has
    at least the configured number of stars, it carries the mark ["[OK]"]
    when the filter asks for official (or automated) images and no mark
    when the filter asks for the others; its index is the shortened
    registry host and its tag is empty. *)
Theorem results_satisfy_filter
    (r : Runtime) (term registry : string) (options : SearchOptions.t)
    (results : list SearchResult.t) (err : option error) (x : SearchResult.t) :
  SearchOptions.ListTags options = false ->
  searchImageInRegistry client r term registry options
  = Some (results, err) ->
  x ∈ results ->
  let f := SearchOptions.Filter options in
  SearchFilter.Stars f <= SearchResult.Stars x
  /\ (SearchFilter.IsOfficial f = types.OptionalBoolTrue ->
      SearchResult.Official x = "[OK]")
  /\ (SearchFilter.IsOfficial f = types.OptionalBoolFalse ->
      SearchResult.Official x = "")
  /\ (SearchFilter.IsAutomated f = types.OptionalBoolTrue ->
      SearchResult.Automated x = "[OK]")
  /\ (SearchFilter.IsAutomated f = types.OptionalBoolFalse ->
      SearchResult.Automated x = "")
  /\ SearchResult.Index x = shortenIndex registry
  /\ SearchResult.Tag x = "".
Proof.
  intros Hmode Hrun Hx f.
  destruct (search_mode_results _ _ _ _ _ _ _ Hmode Hrun Hx)
    as (hit & -> & Hpass).
  unfold matchesFilters in Hpass.
  apply andb_true_iff in Hpass as [Hpass Hstars].
  apply andb_true_iff in Hpass as [Hauto Hofficial].
  apply matchesStarFilter_spec in Hstars.
  apply matchesAutomatedFilter_spec in Hauto.
  apply matchesOfficialFilter_spec in Hofficial.
  fold f in Hstars, Hauto, Hofficial. simpl.
  split; [done |].
  repeat split.
  - intros Hf. rewrite Hf in Hofficial. simpl in Hofficial.
    by rewrite Hofficial.
  - intros Hf. rewrite Hf in Hofficial. simpl in Hofficial.
    by rewrite Hofficial.
  - intros Hf. rewrite Hf in Hauto. simpl in Hauto. by rewrite Hauto.
  - intros Hf. rewrite Hf in Hauto. simpl in Hauto. by rewrite Hauto.
Qed.

(** X7: the description of a result of a repository search holds no
    newline, and unless [NoTrunc] is set it is at most 47 bytes long. *)
Theorem description_is_one_short_line
    (r : Runtime) (term registry : string) (options : SearchOptions.t)
    (results : list SearchResult.t) (err : option error) (x : SearchResult.t) :
  SearchOptions.ListTags options = false ->
  searchImageInRegistry client r term registry options
  = Some (results, err) ->
  x ∈ results ->
  strings.Contains (SearchResult.Description x) newline = false
  /\ (SearchOptions.NoTrunc options = false ->
      (String.length (SearchResult.Description x) <= 47)%nat).
Proof.
  intros Hmode Hrun Hx.
  destruct (search_mode_results _ _ _ _ _ _ _ Hmode Hrun Hx)
    as (hit & -> & _).
  simpl. apply specDescription_clean.
Qed.

(** The options a per-registry search reads: the authentication file never,
    the filter and [NoTrunc] only in repository mode. *)
Lemma searchImageInRegistry_options
    (r : Runtime) (term registry : string) (o1 o2 : SearchOptions.t) :
  SearchOptions.Limit o1 = SearchOptions.Limit o2 ->
  SearchOptions.InsecureSkipTLSVerify o1
  = SearchOptions.InsecureSkipTLSVerify o2 ->
  SearchOptions.ListTags o1 = SearchOptions.ListTags o2 ->
  (SearchOptions.ListTags o1 = false ->
   SearchOptions.Filter o1 = SearchOptions.Filter o2
   /\ SearchOptions.NoTrunc o1 = SearchOptions.NoTrunc o2) ->
  searchImageInRegistry client r term registry o1
  = searchImageInRegistry client r term registry o2.
Proof.
  intros Hlimit Htls Hmode Hrepo.
  assert (Hctx : clientContext r o1 = clientContext r o2)
    by (unfold clientContext; by rewrite Htls).
  destruct (SearchOptions.ListTags o1) eqn:Hmode1.
  - rewrite !searchImageInRegistry_tags_eq by done.
    unfold searchRepositoryTags, tagsLimit. by rewrite Hctx, Hlimit.
  - destruct (Hrepo eq_refl) as [Hfilter Hnotrunc].
    assert (Hreq : requestedLimit o1 = requestedLimit o2)
      by (unfold requestedLimit; by rewrite Hlimit).
    destruct (SearchRegistry client (clientContext r o1) registry term
      (requestedLimit o1)) as [hits|e] eqn:Hq.
    + rewrite (searchImageInRegistry_search _ _ _ _ _ _ Hmode1 Hq).
      rewrite Hctx, Hreq in Hq.
      rewrite (searchImageInRegistry_search _ _ _ _ _ _ (eq_sym Hmode) Hq).
      unfold hitsLimit, specFormat, specDescription.
      by rewrite Hlimit, Hfilter, Hnotrunc.
    + rewrite (searchImageInRegistry_failed _ _ _ _ _ _ Hmode1 Hq).
      rewrite Hctx, Hreq in Hq.
      by rewrite (searchImageInRegistry_failed _ _ _ _ _ _ (eq_sym Hmode) Hq).
Qed.

(** X8: raising the minimum number of stars only removes results: the
    results under the higher minimum are a subsequence of those under the
    lower one. *)
Theorem raising_stars_only_removes
    (r : Runtime) (term registry : string) (o1 o2 : SearchOptions.t)
    (results1 results2 : list SearchResult.t) (err1 err2 : option error) :
  SearchOptions.ListTags o1 = false ->
  SearchOptions.ListTags o2 = false ->
  SearchOptions.Limit o1 = SearchOptions.Limit o2 ->
  SearchOptions.NoTrunc o1 = SearchOptions.NoTrunc o2 ->
  SearchOptions.InsecureSkipTLSVerify o1
  = SearchOptions.InsecureSkipTLSVerify o2 ->
  SearchFilter.IsAutomated (SearchOptions.Filter o1)
  = SearchFilter.IsAutomated (SearchOptions.Filter o2) ->
  SearchFilter.IsOfficial (SearchOptions.Filter o1)
  = SearchFilter.IsOfficial (SearchOptions.Filter o2) ->
  SearchFilter.Stars (SearchOptions.Filter o1)
  <= SearchFilter.Stars (SearchOptions.Filter o2) ->
  searchImageInRegistry client r term registry o1 = Some (results1, err1) ->
  searchImageInRegistry client r term registry o2 = Some (results2, err2) ->
  sublist results2 results1 /\ err1 = err2.
Proof.
  intros Hmode1 Hmode2 Hlimit Hnotrunc Htls Hauto Hofficial Hstars Hrun1 Hrun2.
  assert (Hctx : clientContext r o1 = clientContext r o2)
    by (unfold clientContext; by rewrite Htls).
  assert (Hreq : requestedLimit o1 = requestedLimit o2)
    by (unfold requestedLimit; by rewrite Hlimit).
  destruct (SearchRegistry client (clientContext r o1) registry term
    (requestedLimit o1)) as [hits|e] eqn:Hq.
  - rewrite (searchImageInRegistry_search _ _ _ _ _ _ Hmode1 Hq) in Hrun1.
    rewrite Hctx, Hreq in Hq.
    rewrite (searchImageInRegistry_search _ _ _ _ _ _ Hmode2 Hq) in Hrun2.
    injection Hrun1 as <- <-. injection Hrun2 as <- <-.
    split; [|done].
    replace (specFormat o2 registry (shortenIndex registry))
      with (specFormat o1 registry (shortenIndex registry))
      by (unfold specFormat, specDescription; by rewrite Hnotrunc).
    replace (hitsLimit o2 hits) with (hitsLimit o1 hits)
      by (unfold hitsLimit; by rewrite Hlimit).
    apply fmap_sublist, filter_sublist.
    intros hit. unfold matchesFilters, matchesAutomatedFilter,
      matchesOfficialFilter.
    rewrite Hauto, Hofficial, !andb_true_iff, !matchesStarFilter_spec.
    intros [? ?]. split; [done | lia].
  - rewrite (searchImageInRegistry_failed _ _ _ _ _ _ Hmode1 Hq) in Hrun1.
    rewrite Hctx, Hreq in Hq.
    rewrite (searchImageInRegistry_failed _ _ _ _ _ _ Hmode2 Hq) in Hrun2.
    injection Hrun1 as <- <-. injection Hrun2 as <- <-. done.
Qed.

End PerRegistryResults.

(** ** More facts about the aggregation *)

Lemma successes_none (data : list searchOutputData.t) :
  Forall (fun d => searchOutputData.err d <> None) data ->
  successes data = [].
Proof.
  unfold successes. induction 1 as [|d data Hd _ IH]; simpl; [done |].
  by rewrite bool_decide_eq_false_2.
Qed.


Lemma successes_length (data : list searchOutputData.t) (bound : Z) :
  0 <= bound ->
  Forall (fun d => len (searchOutputData.data d) <= bound) data ->
  len (successes data) <= len data * bound.
Proof.
  intros Hb. unfold successes, len.
  induction 1 as [|d data Hd _ IH]; [simpl; lia |].
  unfold len in Hd. rewrite length_cons, Nat2Z.inj_succ, Z.mul_succ_l. simpl.
  destruct (bool_decide (searchOutputData.err d = None)); simpl.
  - rewrite length_app, Nat2Z.inj_add.
    etrans; [apply Z.add_le_mono; [exact Hd | exact IH] | lia].
  - etrans; [exact IH | lia].
Qed.

Lemma failures_plain (data : list searchOutputData.t) :
  Forall (fun d => exists e, searchOutputData.err d = Some e
                             /\ multierror.causes e = [e]) data ->
  Some <$> (failures data ≫= multierror.causes)
  = searchOutputData.err <$> data
  /\ failures data ≫= multierror.causes = failures data.
Proof.
  unfold failures. induction 1 as [|d data (e & He & Hc) _ [IH1 IH2]];
    simpl; [done |].
  rewrite He. simpl. rewrite Hc. simpl.
  split; f_equal; [exact IH1 | exact IH2].
Qed.

(** ** More facts about the dispatcher *)

Section DispatcherMore.

Context (net : nat -> RegistryClient).
Context (r : Runtime).
Context (searchRegistries : list string) (term : string).

Lemma step_options (o1 o2 : SearchOptions.t) (ev : event) (s : state) :
  (forall index registry,
     searchImageInRegistry (net index) r term registry o1
     = searchImageInRegistry (net index) r term registry o2) ->
  step net r o1 searchRegistries term ev s
  = step net r o2 searchRegistries term ev s.
Proof.
  intros Hsame. destruct ev as [e| | |j|j|j|]; try reflexivity.
  unfold step.
  destruct (routines s !! j) as [g|]; [|done]. simpl.
  destruct (bool_decide (g = Searching)); [|done].
  destruct (searchRegistries !! j) as [registry|]; [|done]. simpl.
  by rewrite Hsame.
Qed.

Lemma run_options (o1 o2 : SearchOptions.t) (schedule : list event)
    (s : state) :
  (forall index registry,
     searchImageInRegistry (net index) r term registry o1
     = searchImageInRegistry (net index) r term registry o2) ->
  run net r o1 searchRegistries term schedule s
  = run net r o2 searchRegistries term schedule s.
Proof.
  intros Hsame. revert s.
  induction schedule as [|ev schedule IH]; intros s; simpl; [done |].
  rewrite (step_options o1 o2 ev s Hsame).
  destruct (step net r o2 searchRegistries term ev s); simpl; [apply IH | done].
Qed.

Context (options : SearchOptions.t).

(** A failed acquisition needs a cancelled context. *)
Lemma run_without_cancel (schedule : list event) (s s' : state) :
  (forall e, Cancel e ∉ schedule) ->
  ctx_err s = None ->
  run net r options searchRegistries term schedule s = Some s' ->
  ctx_err s' = None /\ AcquireFailed ∉ schedule.
Proof.
  revert s. induction schedule as [|ev schedule IH]; intros s Hnc Hctx; simpl.
  - intros [= <-]. split; [done | apply not_elem_of_nil].
  - destruct (step _ _ _ _ _ ev s) as [s1|] eqn:Hstep; simpl; [|done].
    intros Hrun.
    assert (Hnc' : forall e, Cancel e ∉ schedule).
    { intros e He. apply (Hnc e). by apply list_elem_of_further. }
    assert (ev <> AcquireFailed /\ ctx_err s1 = None) as [Hev Hctx1].
    { destruct ev as [e| | |j|j|j|].
      - exfalso. apply (Hnc e). apply list_elem_of_here.
      - step_inv Hstep. by simplify_eq.
      - step_inv Hstep. rewrite Hctx in Hstep. done.
      - step_inv Hstep.
        destruct (searchRegistries !! j); simpl in Hstep; [|done].
        destruct (searchImageInRegistry _ _ _ _ _) as [[??]|];
          simpl in Hstep; [|done].
        by simplify_eq.
      - step_inv Hstep. by simplify_eq.
      - step_inv Hstep. by simplify_eq.
      - step_inv Hstep. by simplify_eq. }
    destruct (IH s1 Hnc' Hctx1 Hrun) as [Hctx' Hnotin].
    split; [done |]. by apply not_elem_of_cons.
Qed.

(** A step writes no slot but the one of the goroutine that returns. *)
Lemma step_slots (ev : event) (s s' : state) (index : nat) :
  step net r options searchRegistries term ev s = Some s' ->
  ev <> SearchReturns index ->
  slots s' !! index = slots s !! index.
Proof.
  intros Hstep Hev. destruct ev as [e| | |j|j|j|].
  - simpl in Hstep. destruct (ctx_err s); by simplify_eq.
  - step_inv Hstep. by simplify_eq.
  - step_inv Hstep. destruct (ctx_err s); simpl in Hstep; by simplify_eq.
  - step_inv Hstep.
    destruct (searchRegistries !! j); simpl in Hstep; [|done].
    destruct (searchImageInRegistry _ _ _ _ _) as [[??]|];
      simpl in Hstep; [|done].
    simplify_eq. simpl. apply list_lookup_insert_ne. congruence.
  - step_inv Hstep. by simplify_eq.
  - step_inv Hstep. by simplify_eq.
  - step_inv Hstep. by simplify_eq.
Qed.

(** A goroutine that has stored its outcome stays so. *)
Lemma step_stored (ev : event) (s s' : state) (index : nat) (g : goroutine) :
  wf net r options searchRegistries term s ->
  step net r options searchRegistries term ev s = Some s' ->
  routines s !! index = Some g -> hasStored g = true ->
  exists g', routines s' !! index = Some g' /\ hasStored g' = true.
Proof.
  intros Hwf Hstep Hg Hstored.
  pose proof (lookup_lt_Some _ _ _ Hg) as Hlt.
  destruct ev as [e| | |j|j|j|].
  - simpl in Hstep. destruct (ctx_err s); simplify_eq. by exists g.
  - step_inv Hstep. simplify_eq. simpl.
    destruct (decide (index = next s)) as [->|Hne].
    + pose proof (wf_started _ _ _ _ _ _ Hwf _ _ Hg) as [_ Hns].
      rewrite Hns in Hstored by lia. done.
    + rewrite list_lookup_insert_ne by done. by exists g.
  - step_inv Hstep. destruct (ctx_err s); simpl in Hstep; simplify_eq.
    by exists g.
  - step_inv Hstep. apply bool_decide_eq_true in Hc. subst.
    destruct (searchRegistries !! j); simpl in Hstep; [|done].
    destruct (searchImageInRegistry _ _ _ _ _) as [[??]|];
      simpl in Hstep; [|done].
    simplify_eq. simpl.
    destruct (decide (index = j)) as [->|Hne]; [by simplify_eq/= |].
    rewrite list_lookup_insert_ne by done. by exists g.
  - step_inv Hstep. simplify_eq. simpl.
    destruct (decide (index = j)) as [->|Hne].
    + rewrite list_lookup_insert_eq by done. by exists WgDone.
    + rewrite list_lookup_insert_ne by done. by exists g.
  - step_inv Hstep. simplify_eq. simpl.
    destruct (decide (index = j)) as [->|Hne].
    + rewrite list_lookup_insert_eq by done. by exists Finished.
    + rewrite list_lookup_insert_ne by done. by exists g.
  - step_inv Hstep. simplify_eq. by exists g.
Qed.

Lemma run_stored (schedule : list event) (s s' : state)
    (index : nat) (g : goroutine) :
  wf net r options searchRegistries term s ->
  run net r options searchRegistries term schedule s = Some s' ->
  routines s !! index = Some g -> hasStored g = true ->
  exists g', routines s' !! index = Some g' /\ hasStored g' = true.
Proof.
  revert s g. induction schedule as [|ev schedule IH]; intros s g Hwf; simpl.
  - intros [= <-] Hg Hstored. by exists g.
  - destruct (step _ _ _ _ _ ev s) as [s1|] eqn:Hstep; simpl; [|done].
    intros Hrun Hg Hstored.
    destruct (step_stored _ _ _ _ _ Hwf Hstep Hg Hstored) as (g1 & Hg1 & Hs1).
    apply (IH s1 g1); [by eapply step_wf | done..].
Qed.

End DispatcherMore.

(** ** What [Search] returns, whatever the schedule *)

(** X9: [Search] never reads the authentication file of its options, and
    in tag-listing mode it reads neither the filter nor [NoTrunc]: two
    calls whose options agree on the rest return the same under every
    schedule. *)
Theorem options_search_reads
    (UnqualifiedSearchRegistries : types.SystemContext -> result (list string))
    (net : nat -> RegistryClient) (r : Runtime) (term : string)
    (o1 o2 : SearchOptions.t) (schedule : list event) :
  SearchOptions.Limit o1 = SearchOptions.Limit o2 ->
  SearchOptions.InsecureSkipTLSVerify o1
  = SearchOptions.InsecureSkipTLSVerify o2 ->
  SearchOptions.ListTags o1 = SearchOptions.ListTags o2 ->
  (SearchOptions.ListTags o1 = false ->
   SearchOptions.Filter o1 = SearchOptions.Filter o2
   /\ SearchOptions.NoTrunc o1 = SearchOptions.NoTrunc o2) ->
  Search UnqualifiedSearchRegistries net r term o1 schedule
  = Search UnqualifiedSearchRegistries net r term o2 schedule.
Proof.
  intros Hlimit Htls Hmode Hrepo. unfold Search.
  destruct (UnqualifiedSearchRegistries (systemContext r)) as [cfg|e];
    [|done].
  destruct (splitTerm cfg term) as [[registries term']|]; [|done]. simpl.
  unfold dispatch. rewrite (run_options net r registries term' o1 o2); [done |].
  intros index registry. by apply searchImageInRegistry_options.
Qed.

Lemma options_search_reads_witness :
  let o1 := sampleOptions officialFilter 2 true in
  let o2 :=
    {| SearchOptions.Filter := noFilter;
       SearchOptions.Limit := 2;
       SearchOptions.NoTrunc := true;
       SearchOptions.Authfile := "/run/containers/auth.json";
       SearchOptions.InsecureSkipTLSVerify := types.OptionalBoolUndefined;
       SearchOptions.ListTags := true |} in
  Search (sampleProvider (Ok threeRegistries)) (sampleNet threeAnswers)
    sampleRuntime "etcd" o1 outOfOrder
  = Search (sampleProvider (Ok threeRegistries)) (sampleNet threeAnswers)
      sampleRuntime "etcd" o2 outOfOrder.
Proof.
  intros o1 o2.
  apply (options_search_reads (sampleProvider (Ok threeRegistries))
    (sampleNet threeAnswers) sampleRuntime "etcd" o1 o2 outOfOrder);
    (reflexivity || discriminate).
Defined.



Section DispatcherTheorems.

Context (net : nat -> RegistryClient).
Context (r : Runtime) (options : SearchOptions.t).
Context (searchRegistries : list string) (term : string).

(** X11: a call is never stuck: from every state it can reach, the
    goroutines can go on, without any acquisition failing, until [Search]
    has returned.  The failure of one registry's query never blocks the
    others or the final join. *)
Theorem search_can_always_return (schedule : list event) (s : state) :
  run net r options searchRegistries term schedule (init searchRegistries)
  = Some s ->
  exists more,
    (AcquireFailed ∉ more)
    /\ is_Some (dispatch net r options searchRegistries term
                  (schedule ++ more)).
Proof.
  intros Hrun.
  pose proof (run_wf _ _ _ _ _ _ _ _ (wf_init _ _ _ _ _) Hrun) as Hwf.
  destruct (progress _ _ _ _ _ _ Hwf) as (more & s' & Hnotin & Hmore & Hret).
  exists more. split; [done |].
  unfold dispatch. rewrite (run_app_Some _ _ _ _ _ _ _ _ _ Hrun), Hmore.
  done.
Qed.


(** X13: the outcome slots are written once and by their owner only: a
    step other than the return of the search of goroutine [index] leaves
    slot [index] as it is, and once goroutine [index] has stored its
    outcome the slot holds it for the rest of the call. *)
Theorem slots_are_written_once
    (schedule more : list event) (s s' : state)
    (index : nat) (g : goroutine) :
  run net r options searchRegistries term schedule (init searchRegistries)
  = Some s ->
  run net r options searchRegistries term more s = Some s' ->
  (forall ev s1,
     step net r options searchRegistries term ev s = Some s1 ->
     ev <> SearchReturns index ->
     slots s1 !! index = slots s !! index)
  /\ (routines s !! index = Some g -> hasStored g = true ->
      slots s' !! index = slots s !! index
      /\ slots s !! index
         = outcome net r options searchRegistries term index).
Proof.
  intros Hrun Hmore.
  split; [intros ev s1; apply step_slots |].
  intros Hg Hstored.
  pose proof (run_wf _ _ _ _ _ _ _ _ (wf_init _ _ _ _ _) Hrun) as Hwf.
  pose proof (run_wf _ _ _ _ _ _ _ _ Hwf Hmore) as Hwf'.
  destruct (run_stored _ _ _ _ _ _ _ _ _ _ Hwf Hmore Hg Hstored)
    as (g' & Hg' & Hstored').
  rewrite (wf_stored _ _ _ _ _ _ Hwf _ _ Hg), Hstored.
  rewrite (wf_stored _ _ _ _ _ _ Hwf' _ _ Hg'), Hstored'.
  done.
Qed.

End DispatcherTheorems.

Lemma run_no_registries
    (net : nat -> RegistryClient) (r : Runtime) (options : SearchOptions.t)
    (term : string) (schedule : list event) (s s' : state) :
  run net r options [] term schedule s = Some s' ->
  AcquireFailed ∉ schedule.
Proof.
  revert s. induction schedule as [|ev schedule IH]; intros s; simpl.
  - intros _. apply not_elem_of_nil.
  - destruct (step net r options [] term ev s) as [s1|] eqn:Hstep; simpl;
      [|done].
    intros Hrun. apply not_elem_of_cons. split; [|by eapply IH].
    intros <-. unfold step in Hstep.
    destruct (bool_decide (next s < length (@nil string))%nat) eqn:Hb.
    + apply bool_decide_eq_true in Hb. simpl in Hb. lia.
    + by rewrite andb_false_r in Hstep.
Qed.

Lemma outcomes_bounded
    (net : nat -> RegistryClient) (r : Runtime) (options : SearchOptions.t)
    (registries : list string) (term : string)
    (data : list searchOutputData.t) :
  mapM (outcome net r options registries term) (seq 0 (length registries))
  = Some data ->
  length data = length registries
  /\ Forall (fun d => len (searchOutputData.data d) <= requestedLimit options)
       data.
Proof.
  intros Hdata. apply mapM_Some_1 in Hdata.
  split.
  - by rewrite <- (Forall2_length _ _ _ Hdata), length_seq.
  - apply Forall_forall. intros d Hd.
    apply list_elem_of_lookup in Hd as [j Hj].
    destruct (Forall2_lookup_r _ _ _ _ _ Hdata Hj) as (i & _ & Hout).
    unfold outcome in Hout.
    destruct (registries !! i) as [registry|]; [|done]. simpl in Hout.
    destruct (searchImageInRegistry (net i) r term registry options)
      as [[out e]|] eqn:Hrun; [|done].
    simpl in Hout. injection Hout as <-. simpl.
    by apply (searchImageInRegistry_bounded _ _ _ _ _ _ _ Hrun).
Qed.

Section SearchTheorems.

Context (UnqualifiedSearchRegistries :
           types.SystemContext -> result (list string)).
Context (net : nat -> RegistryClient) (r : Runtime) (term : string).
Context (options : SearchOptions.t).

(** X14: when every registry's query fails, with an error that is not
    itself a multi-error, [Search] returns no result and a multi-error with
    exactly one cause per registry: the error of each registry, in the
    order of the registry list. *)
Theorem every_failure_is_reported
    (searchRegistries registries : list string) (term' : string)
    (data : list searchOutputData.t) (schedule : list event)
    (results : list SearchResult.t) (err : option error) :
  UnqualifiedSearchRegistries (systemContext r) = Ok searchRegistries ->
  splitTerm searchRegistries term = Some (registries, term') ->
  mapM (outcome net r options registries term')
    (seq 0 (length registries)) = Some data ->
  registries <> [] ->
  Forall (fun d => exists e, searchOutputData.err d = Some e
                             /\ forall es, e <> MultiError es) data ->
  AcquireFailed ∉ schedule ->
  Search UnqualifiedSearchRegistries net r term options schedule
  = Some (results, err) ->
  results = []
  /\ exists causes,
       err = Some (MultiError causes)
       /\ length causes = length registries
       /\ Some <$> causes = searchOutputData.err <$> data.
Proof.
  intros Hcfg Hsplit Hdata Hne Hfail Hnotin.
  rewrite (Search_resolved _ _ _ _ _ _ _ _ _ Hcfg Hsplit). intros Hres.
  destruct (dispatch_aggregates _ _ _ _ _ _ _ Hnotin Hres)
    as (data' & Hdata' & Hagg).
  assert (data' = data) as -> by congruence.
  rewrite aggregate_spec in Hagg.
  assert (Hnone : successes data = []).
  { apply successes_none. eapply Forall_impl; [exact Hfail |].
    simpl. intros d (e & -> & _). done. }
  rewrite Hnone in Hagg. injection Hagg as -> ->.
  split; [done |].
  destruct (failures_plain data) as [Hcauses Hflat].
  { eapply Forall_impl; [exact Hfail |]. simpl.
    intros d (e & He & Hplain). exists e. split; [done |].
    destruct e; try done. by destruct (Hplain Errors). }
  destruct (outcomes_bounded _ _ _ _ _ _ Hdata) as [Hlen _].
  exists (failures data). rewrite Hflat in Hcauses.
  assert (Hcount : length (failures data) = length registries).
  { rewrite <- Hlen, <- (length_fmap Some), Hcauses. apply length_fmap. }
  split; [| split; [done | done]].
  unfold multiErrorOf. rewrite Hflat.
  destruct (failures data); [|done].
  destruct registries; [done | simpl in Hcount; lia].
Qed.


(** X16: with no registry to search, the configured list being empty and
    the term holding no ['/'], [Search] returns an empty result and a nil
    error under every schedule, a cancelled context included: no permit is
    ever acquired, so no acquisition can fail. *)
Theorem no_registries_no_error :
  UnqualifiedSearchRegistries (systemContext r) = Ok [] ->
  strings.Contains term slash = false ->
  Search UnqualifiedSearchRegistries net r term options [WaitReturns]
  = Some ([], None)
  /\ forall schedule res,
       Search UnqualifiedSearchRegistries net r term options schedule
       = Some res ->
       res = ([], None).
Proof.
  intros Hcfg Hplain.
  pose proof (splitTerm_plain [] term Hplain) as Hsplit.
  split.
  - by rewrite (Search_resolved _ _ _ _ _ _ _ _ _ Hcfg Hsplit).
  - intros schedule res.
    rewrite (Search_resolved _ _ _ _ _ _ _ _ _ Hcfg Hsplit). intros Hres.
    assert (Hnotin : AcquireFailed ∉ schedule).
    { unfold dispatch in Hres.
      destruct (run net r options [] term schedule (init [])) as [s|] eqn:Hrun;
        [|done].
      by eapply run_no_registries. }
    destruct (dispatch_aggregates _ _ _ _ _ _ _ Hnotin Hres)
      as (data & Hdata & ->).
    simpl in Hdata. by injection Hdata as <-.
Qed.

(** X17: [Search] returns at most as many results as there are registries
    in the resolved list times the per-registry limit, the explicit limit
    when positive and 25 otherwise. *)
Theorem total_result_bound
    (searchRegistries registries : list string) (term' : string)
    (schedule : list event)
    (results : list SearchResult.t) (err : option error) :
  UnqualifiedSearchRegistries (systemContext r) = Ok searchRegistries ->
  splitTerm searchRegistries term = Some (registries, term') ->
  Search UnqualifiedSearchRegistries net r term options schedule
  = Some (results, err) ->
  len results <= len registries * requestedLimit options.
Proof.
  intros Hcfg Hsplit.
  rewrite (Search_resolved _ _ _ _ _ _ _ _ _ Hcfg Hsplit). intros Hres.
  assert (Hpos : 0 <= len registries * requestedLimit options).
  { unfold requestedLimit, searchMaxQueries, len.
    destruct (Z.gtb_spec (SearchOptions.Limit options) 0); lia. }
  destruct (decide (AcquireFailed ∈ schedule)) as [Hin | Hnotin].
  - unfold dispatch in Hres.
    destruct (run _ _ _ _ _ schedule _) as [s|] eqn:Hrun; [|done].
    simpl in Hres.
    pose proof (run_wf _ _ _ _ _ _ _ _ (wf_init _ _ _ _ _) Hrun) as Hwf.
    destruct (wf_returned _ _ _ _ _ _ Hwf _ Hres)
      as [(e & _ & Heq & _) | (_ & Hall & Heq)].
    + injection Heq as -> _. exact Hpos.
    + rewrite aggregate_spec in Heq. injection Heq as -> _.
      destruct (outcomes_bounded net r options registries term' (slots s))
        as [Hlen Hall'].
      { by apply slots_outcomes. }
      unfold len at 2. rewrite <- Hlen.
      apply successes_length; [|done].
      unfold requestedLimit, searchMaxQueries.
      destruct (Z.gtb_spec (SearchOptions.Limit options) 0); lia.
  - destruct (dispatch_aggregates _ _ _ _ _ _ _ Hnotin Hres)
      as (data & Hdata & Hagg).
    rewrite aggregate_spec in Hagg. injection Hagg as -> _.
    destruct (outcomes_bounded _ _ _ _ _ _ Hdata) as [Hlen Hall].
    unfold len at 2. rewrite <- Hlen.
    apply successes_length; [|done].
    unfold requestedLimit, searchMaxQueries.
    destruct (Z.gtb_spec (SearchOptions.Limit options) 0); lia.
Qed.

(** X18: a call whose context is never cancelled cannot return early: no
    permit acquisition fails, and what [Search] returns is the aggregation
    of the outcomes of all registries of the resolved list. *)
Theorem uncancelled_call_searches_every_registry
    (searchRegistries registries : list string) (term' : string)
    (schedule : list event) (res : list SearchResult.t * option error) :
  UnqualifiedSearchRegistries (systemContext r) = Ok searchRegistries ->
  splitTerm searchRegistries term = Some (registries, term') ->
  (forall e, Cancel e ∉ schedule) ->
  Search UnqualifiedSearchRegistries net r term options schedule
  = Some res ->
  (AcquireFailed ∉ schedule)
  /\ exists data,
       mapM (outcome net r options registries term')
         (seq 0 (length registries)) = Some data
       /\ res = aggregate data.
Proof.
  intros Hcfg Hsplit Hnc.
  rewrite (Search_resolved _ _ _ _ _ _ _ _ _ Hcfg Hsplit). intros Hres.
  assert (Hnotin : AcquireFailed ∉ schedule).
  { unfold dispatch in Hres.
    destruct (run _ _ _ _ _ schedule _) as [s|] eqn:Hrun; [|done].
    by destruct (run_without_cancel net r registries term' options schedule
      (init registries) s Hnc eq_refl Hrun). }
  split; [done |]. by apply dispatch_aggregates with schedule.
Qed.

End SearchTheorems.

Lemma shortenIndex_last_two_labels_witness :
  strings.Split (shortenIndex "registry.hub.docker.com") dot
  = ["docker"; "com"]
  /\ shortenIndex "localhost:5000" = "localhost:5000".
Proof.
  destruct (shortenIndex_last_two_labels "registry.hub.docker.com")
    as (_ & _ & Hlong & _).
  destruct (shortenIndex_last_two_labels "localhost:5000")
    as (_ & Hshort & _).
  split; [apply Hlong | apply Hshort]; vm_compute; lia.
Defined.

Lemma per_registry_result_bound_witness :
  exists results err,
    searchImageInRegistry (sampleClient (Ok thirtyHits) (Ok []))
      sampleRuntime "alpine" "docker.io" (sampleOptions noFilter 0 false)
    = Some (results, err)
    /\ len results <= 25.
Proof.
  destruct (searchImageInRegistry (sampleClient (Ok thirtyHits) (Ok []))
    sampleRuntime "alpine" "docker.io" (sampleOptions noFilter 0 false))
    as [[results err]|] eqn:Hrun; [|vm_compute in Hrun; discriminate Hrun].
  exists results, err. split; [reflexivity |].
  apply (per_registry_result_bound _ _ _ _ _ _ _ Hrun).
Defined.

Lemma per_registry_error_has_no_results_witness :
  exists results,
    searchImageInRegistry
      (sampleClient (Err (External "unauthorized")) (Ok []))
      sampleRuntime "alpine" "docker.io" (sampleOptions noFilter 0 false)
    = Some (results, Some (External "unauthorized"))
    /\ results = [].
Proof.
  destruct (searchImageInRegistry
    (sampleClient (Err (External "unauthorized")) (Ok []))
    sampleRuntime "alpine" "docker.io" (sampleOptions noFilter 0 false))
    as [[results [e|]]|] eqn:Hrun; try (vm_compute in Hrun; discriminate Hrun).
  assert (e = External "unauthorized") as ->
    by (vm_compute in Hrun; congruence).
  exists results. split; [reflexivity |].
  apply (per_registry_error_has_no_results _ _ _ _ _ _ _ Hrun).
Defined.

Lemma negative_limit_returns_nothing_witness :
  exists results err,
    searchImageInRegistry (sampleClient (Ok thirtyHits) (Ok []))
      sampleRuntime "alpine" "docker.io" (sampleOptions noFilter (-5) false)
    = Some (results, err)
    /\ results = [].
Proof.
  destruct (searchImageInRegistry (sampleClient (Ok thirtyHits) (Ok []))
    sampleRuntime "alpine" "docker.io" (sampleOptions noFilter (-5) false))
    as [[results err]|] eqn:Hrun; [|vm_compute in Hrun; discriminate Hrun].
  exists results, err. split; [reflexivity |].
  refine (negative_limit_returns_nothing _ _ _ _ _ _ _ _ Hrun). simpl. lia.
Defined.

Lemma limit_policy_nonnegative_witness :
  hitsLimit (sampleOptions noFilter 5 false) thirtyHits = 5
  /\ tagsLimit (sampleOptions noFilter 0 true) ["3.18"; "3.19"; "latest"] = 3
  /\ exists results,
       searchRepositoryTags (sampleClient (Ok []) (Ok ["3.18"; "3.19"; "latest"]))
         (systemContext sampleRuntime) "quay.io" "alpine"
         (sampleOptions noFilter 2 true)
       = Some (results, None)
       /\ len results = 2
       /\ SearchResult.Tag <$> results = ["3.18"; "3.19"].
Proof.
  split; [| split].
  - apply (limit_policy_nonnegative (sampleClient (Ok []) (Ok []))
      (sampleOptions noFilter 5 false) thirtyHits []
      (systemContext sampleRuntime) "quay.io" "alpine"
      (types.Build_ImageReference "docker" "quay.io/alpine")).
    simpl. lia.
  - apply (limit_policy_nonnegative (sampleClient (Ok []) (Ok []))
      (sampleOptions noFilter 0 true) [] ["3.18"; "3.19"; "latest"]
      (systemContext sampleRuntime) "quay.io" "alpine"
      (types.Build_ImageReference "docker" "quay.io/alpine")).
    simpl. lia.
  - apply (limit_policy_nonnegative
      (sampleClient (Ok []) (Ok ["3.18"; "3.19"; "latest"]))
      (sampleOptions noFilter 2 true) [] ["3.18"; "3.19"; "latest"]
      (systemContext sampleRuntime) "quay.io" "alpine"
      (types.Build_ImageReference "docker" "quay.io/alpine"));
      [simpl; lia | reflexivity | reflexivity].
Defined.

Lemma results_satisfy_filter_witness :
  exists results x,
    searchImageInRegistry (sampleClient (Ok mixedHits) (Ok []))
      sampleRuntime "a" "registry.docker.io"
      (sampleOptions officialFilter 0 false)
    = Some (results, None)
    /\ results !! 1%nat = Some x
    /\ 5 <= SearchResult.Stars x
    /\ SearchResult.Official x = "[OK]"
    /\ SearchResult.Index x = "docker.io".
Proof.
  destruct (searchImageInRegistry (sampleClient (Ok mixedHits) (Ok []))
    sampleRuntime "a" "registry.docker.io"
    (sampleOptions officialFilter 0 false))
    as [[results err]|] eqn:Hrun; [|vm_compute in Hrun; discriminate Hrun].
  assert (err = None) as -> by (vm_compute in Hrun; congruence).
  destruct (results !! 1%nat) as [x|] eqn:Hx;
    [|vm_compute in Hrun; injection Hrun as <-; discriminate Hx].
  exists results, x. split; [reflexivity |]. split; [exact Hx |].
  destruct (results_satisfy_filter (sampleClient (Ok mixedHits) (Ok []))
    sampleRuntime "a" "registry.docker.io"
    (sampleOptions officialFilter 0 false) results None x eq_refl Hrun
    (list_elem_of_lookup_2 _ _ _ Hx)) as (Hstars & Hofficial & _ & _ & _ & Hindex & _).
  split; [exact Hstars |]. split; [by apply Hofficial | exact Hindex].
Defined.

Lemma description_is_one_short_line_witness :
  exists results x,
    searchImageInRegistry (sampleClient (Ok mixedHits) (Ok []))
      sampleRuntime "a" "docker.io" (sampleOptions noFilter 0 false)
    = Some (results, None)
    /\ results !! 0%nat = Some x
    /\ strings.Contains (SearchResult.Description x) newline = false
    /\ (String.length (SearchResult.Description x) <= 47)%nat.
Proof.
  destruct (searchImageInRegistry (sampleClient (Ok mixedHits) (Ok []))
    sampleRuntime "a" "docker.io" (sampleOptions noFilter 0 false))
    as [[results err]|] eqn:Hrun; [|vm_compute in Hrun; discriminate Hrun].
  assert (err = None) as -> by (vm_compute in Hrun; congruence).
  destruct (results !! 0%nat) as [x|] eqn:Hx;
    [|vm_compute in Hrun; injection Hrun as <-; discriminate Hx].
  exists results, x. split; [reflexivity |]. split; [exact Hx |].
  destruct (description_is_one_short_line (sampleClient (Ok mixedHits) (Ok []))
    sampleRuntime "a" "docker.io" (sampleOptions noFilter 0 false)
    results None x eq_refl Hrun
    (list_elem_of_lookup_2 _ _ _ Hx)) as [Hclean Hshort].
  split; [exact Hclean | by apply Hshort].
Defined.

Lemma raising_stars_only_removes_witness :
  exists results1 results2,
    searchImageInRegistry (sampleClient (Ok mixedHits) (Ok []))
      sampleRuntime "a" "docker.io" (sampleOptions noFilter 0 false)
    = Some (results1, None)
    /\ searchImageInRegistry (sampleClient (Ok mixedHits) (Ok []))
         sampleRuntime "a" "docker.io"
         (sampleOptions
            {| SearchFilter.Stars := 6;
               SearchFilter.IsAutomated := types.OptionalBoolUndefined;
               SearchFilter.IsOfficial := types.OptionalBoolUndefined |}
            0 false)
       = Some (results2, None)
    /\ length results1 = 4%nat /\ length results2 = 2%nat
    /\ sublist results2 results1.
Proof.
  destruct (searchImageInRegistry (sampleClient (Ok mixedHits) (Ok []))
    sampleRuntime "a" "docker.io" (sampleOptions noFilter 0 false))
    as [[results1 err1]|] eqn:Hrun1; [|vm_compute in Hrun1; discriminate Hrun1].
  destruct (searchImageInRegistry (sampleClient (Ok mixedHits) (Ok []))
    sampleRuntime "a" "docker.io"
    (sampleOptions
       {| SearchFilter.Stars := 6;
          SearchFilter.IsAutomated := types.OptionalBoolUndefined;
          SearchFilter.IsOfficial := types.OptionalBoolUndefined |}
       0 false))
    as [[results2 err2]|] eqn:Hrun2; [|vm_compute in Hrun2; discriminate Hrun2].
  assert (err1 = None) as -> by (vm_compute in Hrun1; congruence).
  assert (err2 = None) as -> by (vm_compute in Hrun2; congruence).
  exists results1, results2. split; [reflexivity |]. split; [reflexivity |].
  split; [vm_compute in Hrun1; by injection Hrun1 as <- |].
  split; [vm_compute in Hrun2; by injection Hrun2 as <- |].
  refine (proj1 (raising_stars_only_removes
    (sampleClient (Ok mixedHits) (Ok [])) sampleRuntime "a" "docker.io"
    (sampleOptions noFilter 0 false)
    (sampleOptions
       {| SearchFilter.Stars := 6;
          SearchFilter.IsAutomated := types.OptionalBoolUndefined;
          SearchFilter.IsOfficial := types.OptionalBoolUndefined |}
       0 false)
    results1 results2 None None
    eq_refl eq_refl eq_refl eq_refl eq_refl eq_refl eq_refl
    _ Hrun1 Hrun2)). simpl. lia.
Defined.

Lemma search_can_always_return_witness :
  exists more,
    (AcquireFailed ∉ more)
    /\ is_Some (dispatch (sampleNet []) sampleRuntime
                  (sampleOptions noFilter 0 false) eightRegistries "etcd"
                  (sixRunning ++ more)).
Proof.
  destruct (run (sampleNet []) sampleRuntime (sampleOptions noFilter 0 false)
    eightRegistries "etcd" sixRunning (init eightRegistries)) as [s|] eqn:Hrun;
    [|vm_compute in Hrun; discriminate Hrun].
  exact (search_can_always_return _ _ _ _ _ _ _ Hrun).
Defined.


Lemma slots_are_written_once_witness :
  exists s s',
    run (sampleNet [Ok [sampleHit "etcd" 3 false]]) sampleRuntime
      (sampleOptions noFilter 0 false) eightRegistries "etcd" sixRunning
      (init eightRegistries) = Some s
    /\ run (sampleNet [Ok [sampleHit "etcd" 3 false]]) sampleRuntime
         (sampleOptions noFilter 0 false) eightRegistries "etcd"
         [RunWgDone 0; SearchReturns 1; RunRelease 0; Acquired] s = Some s'
    /\ slots s' !! 0%nat = slots s !! 0%nat.
Proof.
  destruct (run (sampleNet [Ok [sampleHit "etcd" 3 false]]) sampleRuntime
    (sampleOptions noFilter 0 false) eightRegistries "etcd" sixRunning
    (init eightRegistries)) as [s|] eqn:Hrun;
    [|vm_compute in Hrun; discriminate Hrun].
  destruct (run (sampleNet [Ok [sampleHit "etcd" 3 false]]) sampleRuntime
    (sampleOptions noFilter 0 false) eightRegistries "etcd"
    [RunWgDone 0; SearchReturns 1; RunRelease 0; Acquired] s) as [s'|]
    eqn:Hmore.
  - exists s, s'. split; [reflexivity |]. split; [exact Hmore |].
    destruct (slots_are_written_once _ _ _ _ _ _ _ _ _ 0%nat Stored
      Hrun Hmore) as [_ Honce].
    apply Honce; [|reflexivity].
    vm_compute in Hrun. by injection Hrun as <-.
  - vm_compute in Hrun. injection Hrun as <-.
    vm_compute in Hmore. discriminate Hmore.
Defined.

Lemma every_failure_is_reported_witness :
  exists causes,
    Search (sampleProvider (Ok threeRegistries)) (sampleNet []) sampleRuntime
      "etcd" (sampleOptions noFilter 0 false) outOfOrder
    = Some ([], Some (MultiError causes))
    /\ length causes = 3%nat.
Proof.
  destruct (Search (sampleProvider (Ok threeRegistries)) (sampleNet [])
    sampleRuntime "etcd" (sampleOptions noFilter 0 false) outOfOrder)
    as [[results err]|] eqn:Hrun; [|vm_compute in Hrun; discriminate Hrun].
  destruct (mapM (outcome (sampleNet []) sampleRuntime
    (sampleOptions noFilter 0 false) threeRegistries "etcd") (seq 0 3))
    as [data|] eqn:Hdata; [|vm_compute in Hdata; discriminate Hdata].
  assert (Hfail : Forall (fun d => exists e, searchOutputData.err d = Some e
                                   /\ forall es, e <> MultiError es) data).
  { vm_compute in Hdata. injection Hdata as <-.
    apply Forall_cons; split; [|apply Forall_cons; split;
      [|apply Forall_cons; split; [|apply Forall_nil_2]]];
      (eexists; split; [reflexivity | discriminate]). }
  assert (Hnotin : AcquireFailed ∉ outOfOrder)
    by (unfold outOfOrder; not_in_schedule).
  assert (Hne : threeRegistries <> []) by discriminate.
  pose proof (every_failure_is_reported (sampleProvider (Ok threeRegistries))
    (sampleNet []) sampleRuntime "etcd" (sampleOptions noFilter 0 false)
    threeRegistries threeRegistries "etcd" data outOfOrder results err
    eq_refl eq_refl Hdata Hne Hfail Hnotin Hrun)
    as (Hresults & causes & Herr & Hlen & _).
  exists causes. subst results err. split; [reflexivity | exact Hlen].
Defined.


Lemma no_registries_no_error_witness :
  Search (sampleProvider (Ok [])) (sampleNet []) sampleRuntime "etcd"
    (sampleOptions noFilter 0 false) [Cancel contextCanceled; WaitReturns]
  = Some ([], None).
Proof.
  destruct (no_registries_no_error (sampleProvider (Ok [])) (sampleNet [])
    sampleRuntime "etcd" (sampleOptions noFilter 0 false) eq_refl eq_refl)
    as [_ Hall].
  destruct (Search (sampleProvider (Ok [])) (sampleNet []) sampleRuntime
    "etcd" (sampleOptions noFilter 0 false)
    [Cancel contextCanceled; WaitReturns]) as [res|] eqn:Hrun;
    [|vm_compute in Hrun; discriminate Hrun].
  f_equal. by apply (Hall [Cancel contextCanceled; WaitReturns]).
Defined.

Lemma total_result_bound_witness :
  exists results err,
    Search (sampleProvider (Ok threeRegistries)) (sampleNet threeAnswers)
      sampleRuntime "etcd" (sampleOptions noFilter 0 false) outOfOrder
    = Some (results, err)
    /\ len results <= 3 * 25.
Proof.
  destruct (Search (sampleProvider (Ok threeRegistries))
    (sampleNet threeAnswers) sampleRuntime "etcd"
    (sampleOptions noFilter 0 false) outOfOrder)
    as [[results err]|] eqn:Hrun; [|vm_compute in Hrun; discriminate Hrun].
  exists results, err. split; [reflexivity |].
  apply (total_result_bound (sampleProvider (Ok threeRegistries))
    (sampleNet threeAnswers) sampleRuntime "etcd"
    (sampleOptions noFilter 0 false) threeRegistries threeRegistries "etcd"
    outOfOrder results err eq_refl eq_refl Hrun).
Defined.

Lemma uncancelled_call_searches_every_registry_witness :
  exists data,
    mapM (outcome (sampleNet threeAnswers) sampleRuntime
            (sampleOptions noFilter 0 false) threeRegistries "etcd")
      (seq 0 3) = Some data
    /\ Search (sampleProvider (Ok threeRegistries)) (sampleNet threeAnswers)
         sampleRuntime "etcd" (sampleOptions noFilter 0 false) outOfOrder
       = Some (aggregate data).
Proof.
  destruct (Search (sampleProvider (Ok threeRegistries))
    (sampleNet threeAnswers) sampleRuntime "etcd"
    (sampleOptions noFilter 0 false) outOfOrder)
    as [res|] eqn:Hrun; [|vm_compute in Hrun; discriminate Hrun].
  assert (Hnc : forall e, Cancel e ∉ outOfOrder)
    by (intros e; unfold outOfOrder; not_in_schedule).
  pose proof (uncancelled_call_searches_every_registry
    (sampleProvider (Ok threeRegistries)) (sampleNet threeAnswers)
    sampleRuntime "etcd" (sampleOptions noFilter 0 false)
    threeRegistries threeRegistries "etcd" outOfOrder res eq_refl eq_refl
    Hnc Hrun) as (_ & data & Hdata & Hres).
  exists data. split; [exact Hdata | by rewrite Hres].
Defined.
